(** * Tenant-isolated authorization and audit layer of the sales CRM

    A shallow embedding of [src/lib/auth.ts], [src/lib/database.ts] and
    [src/app/api/accounts/route.ts].

    JavaScript values are an inductive type [jsval]; objects used as maps
    are finite maps over their own string keys, and a property read with
    a key chosen at run time also sees the members inherited from
    [Object.prototype] ([js_lookup]).  Numbers are integers; where the
    double arithmetic of the code can round, the rounding is written out
    ([to_double]).  Code that can throw
    lives in a state-and-exception monad over a [World] that holds the
    tables of the persistent store, the console and a trace of the store
    operations that were issued. *)

From Stdlib Require Import ZArith NArith List String Ascii Bool Lia.
From stdpp Require Import base option list gmap strings pretty sorting.

Local Open Scope string_scope.
Local Open Scope list_scope.
Local Open Scope Z_scope.

(** ** JavaScript values *)

#[warnings="-register-all"]
Inductive jsval : Type :=
| JUndefined
| JNull
| JBool (b : bool)
| JNum (z : Z)
| JStr (s : string)
| JArr (l : list jsval)
| JObj (m : gmap string jsval).

(** Thrown values.  Everything the modelled code throws or catches is an
    [Error] object; [exn_kind] is what [instanceof] can tell apart and
    [exn_message] is the [message] property. *)
Inductive exn_kind := KError | KTypeError | KZodError | KJwtError | KPrismaError.

Record exn := Exn { exn_kind_of : exn_kind; exn_message : string }.

Definition result (A : Type) : Type := exn + A.

(** [!v] is [negb (truthy v)]. [NaN] is not a [JNum]; the model has integers only. *)
Definition truthy (v : jsval) : bool :=
  match v with
  | JUndefined | JNull => false
  | JBool b => b
  | JNum z => negb (z =? 0)
  | JStr s => negb (String.eqb s "")
  | JArr _ | JObj _ => true
  end.

(** [a || b] on values. *)
Definition js_or (a b : jsval) : jsval := if truthy a then a else b.

(** Own properties of a list-like value, keyed by decimal index. *)
Definition index_props (l : list jsval) : gmap string jsval :=
  list_to_map (imap (fun i v => (pretty i, v)) l).

Definition chars_of (s : string) : list jsval :=
  map (fun c => JStr (String c EmptyString)) (list_ascii_of_string s).

(** Object spread [{...v}]: the own enumerable properties of [v];
    [undefined], [null], booleans and numbers contribute nothing. *)
Definition spread (v : jsval) : gmap string jsval :=
  match v with
  | JObj m => m
  | JArr l => index_props l
  | JStr s => index_props (chars_of s)
  | _ => ∅
  end.

(** Own-property read on a value that is neither [undefined] nor
    [null]: the own properties of the value and [length]. This is [v[k]]
    for every key that no prototype defines, such as [where]. *)
Definition js_get (v : jsval) (k : string) : jsval :=
  match v with
  | JObj m => default JUndefined (m !! k)
  | JArr l =>
      if String.eqb k "length" then JNum (Z.of_nat (length l))
      else default JUndefined (index_props l !! k)
  | JStr s =>
      if String.eqb k "length" then JNum (Z.of_nat (String.length s))
      else default JUndefined (index_props (chars_of s) !! k)
  | _ => JUndefined
  end.

(** The names every object inherits from [Object.prototype]: eleven
    built-in functions and the accessor [__proto__], which yields the
    prototype itself. *)
Definition object_prototype_names : list string :=
  [ "constructor"; "__defineGetter__"; "__defineSetter__"; "hasOwnProperty";
    "__lookupGetter__"; "__lookupSetter__"; "isPrototypeOf"; "propertyIsEnumerable";
    "toString"; "valueOf"; "__proto__"; "toLocaleString" ].

Definition inherited (k : string) : bool :=
  existsb (String.eqb k) object_prototype_names.

(** An inherited member as a value: an object (a function or the
    prototype), so it is truthy, it has no own enumerable property, and
    it carries no array or string method. *)
Definition builtin_member : jsval := JObj ∅.

(** Property read [o[k]] on an object with a key chosen at run time: an
    own property wins, then comes [Object.prototype]. Arrays and strings
    are read as by [js_get]; the members of their own prototypes are not
    modelled, and no statement below reads one. *)
Definition js_lookup (v : jsval) (k : string) : jsval :=
  match v with
  | JObj m =>
      match m !! k with
      | Some x => x
      | None => if inherited k then builtin_member else JUndefined
      end
  | _ => js_get v k
  end.

(** [x === 's'] for a string literal (the only comparison [includes] needs here). *)
Definition is_str (s : string) (v : jsval) : bool :=
  match v with JStr s' => String.eqb s' s | _ => false end.

Definition is_substring (needle hay : string) : bool :=
  match String.index 0 needle hay with Some _ => true | None => false end.

(** [recv.includes(s)] for a string argument: membership for arrays,
    substring test for strings, a [TypeError] for any other receiver
    (no value of the model carries a callable [includes]). *)
Definition js_includes (recv : jsval) (s : string) : result bool :=
  match recv with
  | JArr l => inr (existsb (is_str s) l)
  | JStr h => inr (is_substring s h)
  | _ => inl (Exn KTypeError "includes is not a function")
  end.

(** ** Permission model ([src/lib/auth.ts]) *)

Definition hasPermission (userPermissions : jsval) (resource action : string)
  : result bool :=
  if negb (truthy userPermissions) then inr false
  else
    let star := js_lookup userPermissions "*" in
    match (if truthy star then js_includes star "*" else inr false) with
    | inl e => inl e
    | inr true => inr true
    | inr false =>
        let resourcePermissions := js_lookup userPermissions resource in
        if negb (truthy resourcePermissions) then inr false
        else
          match js_includes resourcePermissions action with
          | inl e => inl e
          | inr true => inr true
          | inr false => js_includes resourcePermissions "*"
          end
    end.

(** A permission set of the data model: resource name to list of actions. *)
Definition perm_obj (p : gmap string (list string)) : jsval :=
  JObj ((fun acts => JArr (map JStr acts)) <$> p).

(** The permission rule in the words of the specification. *)
Definition isAllowed_spec (p : gmap string (list string)) (r a : string) : Prop :=
  (exists acts, p !! "*" = Some acts /\ In "*" acts) \/
  (exists acts, p !! r = Some acts /\ (In a acts \/ In "*" acts)).

(** Is [s] listed in an optional action list? *)
Definition listed (s : string) (o : option (list string)) : bool :=
  match o with
  | Some acts => existsb (is_str s) (map JStr acts)
  | None => false
  end.

Definition DEFAULT_PERMISSIONS_SuperAdmin : gmap string (list string) :=
  {[ "*" := ["*"] ]}.

Definition DEFAULT_PERMISSIONS_SalesRep : gmap string (list string) :=
  list_to_map
    [ ("accounts", ["read"; "write"]); ("contacts", ["read"; "write"]);
      ("leads", ["read"; "write"]); ("opportunities", ["read"; "write"]);
      ("activities", ["read"; "write"]); ("tasks", ["read"; "write"]) ].

Example hasPermission_rep_read :
  hasPermission (perm_obj DEFAULT_PERMISSIONS_SalesRep) "accounts" "read" = inr true.
Proof. vm_compute. reflexivity. Qed.

Example hasPermission_rep_reports :
  hasPermission (perm_obj DEFAULT_PERMISSIONS_SalesRep) "reports" "read" = inr false.
Proof. vm_compute. reflexivity. Qed.

Example hasPermission_super :
  hasPermission (perm_obj DEFAULT_PERMISSIONS_SuperAdmin) "anything" "delete" = inr true.
Proof. vm_compute. reflexivity. Qed.

(** A resource named like a member of [Object.prototype]. *)
Example hasPermission_rep_toString :
  hasPermission (perm_obj DEFAULT_PERMISSIONS_SalesRep) "toString" "read" =
  inl (Exn KTypeError "includes is not a function").
Proof. vm_compute. reflexivity. Qed.

(** ** Strings *)

(** [s.split(sep)] for a one-character separator. *)
Fixpoint split_on (sep : ascii) (s : string) : list string :=
  match s with
  | EmptyString => [EmptyString]
  | String c r =>
      if Ascii.eqb c sep then EmptyString :: split_on sep r
      else match split_on sep r with
           | h :: t => String c h :: t
           | [] => [String c EmptyString]
           end
  end.

Fixpoint has_char (c : ascii) (s : string) : bool :=
  match s with
  | EmptyString => false
  | String d r => Ascii.eqb d c || has_char c r
  end.

(** [s.replace(pat, rep)]: the first occurrence only. *)
Definition replace_first (pat rep s : string) : string :=
  match String.index 0 pat s with
  | Some n =>
      String.substring 0 n s +:+ rep +:+
      String.substring (n + String.length pat) (String.length s - (n + String.length pat)) s
  | None => s
  end.

Example split_on_ex : split_on "." "a.bc..d" = ["a"; "bc"; ""; "d"].
Proof. reflexivity. Qed.

Example replace_first_ex : replace_first "Bearer " "" "Bearer abc" = "abc".
Proof. reflexivity. Qed.

(** ** Session tokens: payload and claim set *)

Record TokenPayload := {
  userId : string;
  tenantId : string;
  roleId : string;
  email : string
}.

(** What a verified token decodes to: the payload plus the registered
    claims [iat] and [exp] (seconds since the epoch). *)
Record JwtClaims := {
  jc_payload : TokenPayload;
  jc_iat : N;
  jc_exp : N
}.

(** ** Rows and queries of the persistent store *)

Abbreviation row := (gmap string jsval).

Record query := {
  q_where : gmap string jsval;
  q_include : jsval;
  q_orderBy : jsval;
  q_skip : Z;
  q_take : Z
}.

(** ** Platform: what the code imports and does not define

    The token codec and MAC of [jsonwebtoken], [parseInt],
    [JSON.stringify], the [zod] schema of the accounts route, the
    deployment environment, and the parts of the query engine the code
    never inspects (filters that are not plain equalities, orderings that
    are not a single column). *)
Class Platform := {
  jwt_encode : JwtClaims -> string;
  jwt_decode : string -> option JwtClaims;
  hmac : string -> string -> string;
  env_JWT_SECRET : option string;
  env_JWT_EXPIRES_IN : option N;
  parseInt : string -> option Z;
  JSON_stringify : jsval -> result string;
  createAccountSchema_parse : jsval -> result (gmap string jsval);
  engine_filter : string -> jsval -> gmap string jsval -> bool;
  engine_order : jsval -> list (gmap string jsval) -> list (gmap string jsval)
}.

(** ** The persistent store and the world around a request *)

Record RoleRow := {
  role_id : string;
  role_name : string;
  role_permissions : jsval
}.

Record UserRow := {
  user_id : string;
  user_email : string;
  user_firstName : option string;
  user_lastName : option string;
  user_tenantId : string;
  user_roleId : option string;
  user_isActive : bool
}.

Record AuditRow := {
  al_tenantId : string;
  al_userId : option string;
  al_action : string;
  al_resourceType : string;
  al_resourceId : option string;
  al_beforeData : option string;
  al_afterData : option string;
  al_ipAddress : option string;
  al_userAgent : option string
}.

(** Calls that reach the store, in the order they are issued. *)
Inductive event :=
| EvUserFindFirst (id tenant : string)
| EvFindMany (model : string) (q : query)
| EvCount (model : string) (where_ : gmap string jsval)
| EvCreate (model : string) (data : gmap string jsval)
| EvAuditCreate (r : AuditRow).

(** [w_faults] is the outcome of the store calls still to come, in
    order: [Some e] makes the call reject with [e] (store unavailable,
    constraint violated, ...), [None] lets it run; past the end of the
    list every call runs. *)
Record World := MkWorld {
  w_users : list UserRow;
  w_roles : list RoleRow;
  w_tables : gmap string (list (gmap string jsval));
  w_audit : list AuditRow;
  w_faults : list (option exn);
  w_trace : list event;
  w_console : list string;
  w_clock : N;
  w_next_id : nat
}.

Definition set_faults (f : list (option exn)) (w : World) : World :=
  MkWorld (w_users w) (w_roles w) (w_tables w) (w_audit w) f
          (w_trace w) (w_console w) (w_clock w) (w_next_id w).

Definition add_event (e : event) (w : World) : World :=
  MkWorld (w_users w) (w_roles w) (w_tables w) (w_audit w) (w_faults w)
          (w_trace w ++ [e]) (w_console w) (w_clock w) (w_next_id w).

Definition add_console (msg : string) (w : World) : World :=
  MkWorld (w_users w) (w_roles w) (w_tables w) (w_audit w) (w_faults w)
          (w_trace w) (w_console w ++ [msg]) (w_clock w) (w_next_id w).

Definition add_audit (r : AuditRow) (w : World) : World :=
  MkWorld (w_users w) (w_roles w) (w_tables w) (w_audit w ++ [r]) (w_faults w)
          (w_trace w) (w_console w) (w_clock w) (w_next_id w).

Definition add_row (model : string) (r : gmap string jsval) (w : World) : World :=
  MkWorld (w_users w) (w_roles w)
          (<[model := default [] (w_tables w !! model) ++ [r]]> (w_tables w))
          (w_audit w) (w_faults w) (w_trace w) (w_console w) (w_clock w)
          (S (w_next_id w)).

(** ** State-and-exception monad *)

Definition M (A : Type) : Type := World -> result A * World.

Definition ret {A} (a : A) : M A := fun w => (inr a, w).

Definition throw {A} (e : exn) : M A := fun w => (inl e, w).

Definition bind {A B} (m : M A) (k : A -> M B) : M B :=
  fun w => match m w with
           | (inr a, w') => k a w'
           | (inl e, w') => (inl e, w')
           end.

Definition try_catch {A} (body : M A) (handler : exn -> M A) : M A :=
  fun w => match body w with
           | (inr a, w') => (inr a, w')
           | (inl e, w') => handler e w'
           end.

Definition lift {A} (r : result A) : M A := fun w => (r, w).

Definition console_error (msg : string) : M unit :=
  fun w => (inr tt, add_console msg w).

Definition get_clock : M N := fun w => (inr (w_clock w), w).

#[global] Instance M_ret : MRet M := @ret.
#[global] Instance M_bind : MBind M := fun A B k m => bind m k.

(** Unfolds the monad's operations in a goal. *)
Ltac run := unfold mbind, M_bind, bind, mret, M_ret, ret, throw, lift, try_catch,
                   get_clock, console_error in *.

(** [await Promise.all([a, b])]: both calls are issued; the first
    rejection (in issue order) is the one that surfaces. *)
Definition promise_all2 {A B} (a : M A) (b : M B) : M (A * B) :=
  fun w =>
    let '(ra, w1) := a w in
    let '(rb, w2) := b w1 in
    match ra, rb with
    | inl e, _ => (inl e, w2)
    | inr _, inl e => (inl e, w2)
    | inr x, inr y => (inr (x, y), w2)
    end.

Definition prisma_error : exn := Exn KPrismaError "Can't reach database server".

(** The error the next call to the store rejects with, if it does. *)
Definition next_failure (w : World) : option exn :=
  match w_faults w with
  | Some e :: _ => Some e
  | _ => None
  end.

Definition next_fails (w : World) : bool :=
  match next_failure w with
  | Some _ => true
  | None => false
  end.

(** The world once a call has been issued: the call is on the trace and
    its outcome is consumed. *)
Definition after_call (ev : event) (w : World) : World :=
  set_faults (tail (w_faults w)) (add_event ev w).

(** One call to the store: it is recorded, then either rejects (per
    [w_faults]) or runs [op] on the tables. *)
Definition store_call {A} (ev : event) (op : World -> A * World) : M A :=
  fun w =>
    match next_failure w with
    | Some e => (inl e, after_call ev w)
    | None => let '(a, w2) := op (after_call ev w) in (inr a, w2)
    end.

(** The next [n] calls to the store succeed. *)
Definition store_up (n : nat) (w : World) : bool :=
  forallb (fun o => match o with Some _ => false | None => true end)
          (firstn n (w_faults w)).

Record AuthUser := {
  au_id : string;
  au_email : string;
  au_firstName : option string;
  au_lastName : option string;
  au_tenantId : string;
  au_roleId : option string;
  au_role : option RoleRow
}.

Section Code.
Context {P : Platform}.

(** ** Token service ([jsonwebtoken] with HS256, and [src/lib/auth.ts]) *)

(** [process.env.X || fallback]: an unset or empty variable gives the fallback. *)
Definition JWT_SECRET : string :=
  match env_JWT_SECRET with
  | Some s => if String.eqb s "" then "your-secret-key-change-in-production" else s
  | None => "your-secret-key-change-in-production"
  end.

(** The lifetime in seconds that the setting denotes; ['24h'] when unset. *)
Definition JWT_EXPIRES_IN : N :=
  match env_JWT_EXPIRES_IN with
  | Some n => n
  | None => 86400%N
  end.

(** The encoded header (alg HS256, typ JWT). *)
Definition jwt_header : string := "eyJhbGciOiJIUzI1NiIsInR5cCI6IkpXVCJ9".

(** The claim set a token issued at [now] carries. *)
Definition issued_claims (payload : TokenPayload) (expiresIn now : N) : JwtClaims :=
  {| jc_payload := payload; jc_iat := now; jc_exp := (now + expiresIn)%N |}.

(** [jwt.sign(payload, secret, { expiresIn })] at time [now]. *)
Definition jwt_sign (payload : TokenPayload) (secret : string) (expiresIn now : N)
  : string :=
  let body := jwt_header +:+ "." +:+ jwt_encode (issued_claims payload expiresIn now) in
  body +:+ "." +:+ hmac secret body.

Definition jwt_error (msg : string) : exn := Exn KJwtError msg.

(** [jwt.verify(token, secret)] at time [now]: three segments, a payload
    that decodes, a signature that matches, and an expiry in the future. *)
Definition jwt_verify (token secret : string) (now : N) : result JwtClaims :=
  match split_on "." token with
  | [h; p; sig] =>
      match jwt_decode p with
      | None => inl (jwt_error "invalid token")
      | Some claims =>
          if negb (String.eqb sig (hmac secret (h +:+ "." +:+ p)))
          then inl (jwt_error "invalid signature")
          else if (jc_exp claims <=? now)%N
          then inl (jwt_error "jwt expired")
          else inr claims
      end
  | _ => inl (jwt_error "jwt malformed")
  end.

Definition generateToken (payload : TokenPayload) (now : N) : string :=
  jwt_sign payload JWT_SECRET JWT_EXPIRES_IN now.

Definition generic_error : exn := Exn KError "Invalid or expired token".

Definition verifyToken (token : string) (now : N) : result JwtClaims :=
  match jwt_verify token JWT_SECRET now with
  | inr claims => inr claims
  | inl _ => inl generic_error
  end.

(** The three ways a presented token can be bad. *)
Definition token_malformed (token : string) : bool :=
  match split_on "." token with
  | [_; p; _] => match jwt_decode p with Some _ => false | None => true end
  | _ => true
  end.

Definition token_bad_signature (token : string) : bool :=
  match split_on "." token with
  | [h; p; sig] => negb (String.eqb sig (hmac JWT_SECRET (h +:+ "." +:+ p)))
  | _ => false
  end.

Definition token_expired (token : string) (now : N) : bool :=
  match split_on "." token with
  | [_; p; _] =>
      match jwt_decode p with
      | Some claims => (jc_exp claims <=? now)%N
      | None => false
      end
  | _ => false
  end.

(** ** User lookup *)

Definition user_matches (id tenant : string) (u : UserRow) : bool :=
  String.eqb (user_id u) id && String.eqb (user_tenantId u) tenant && user_isActive u.

Definition role_of (roles : list RoleRow) (u : UserRow) : option RoleRow :=
  match user_roleId u with
  | Some rid => List.find (fun r => String.eqb (role_id r) rid) roles
  | None => None
  end.

(** [prisma.user.findFirst({ where: { id, tenantId, isActive: true },
    include: { role: true } })]. *)
Definition user_findFirst (id tenant : string)
  : M (option (UserRow * option RoleRow)) :=
  store_call (EvUserFindFirst id tenant)
    (fun w =>
       (match List.find (user_matches id tenant) (w_users w) with
        | Some u => Some (u, role_of (w_roles w) u)
        | None => None
        end, w)).

Definition getUserByToken (token : string) : M (option AuthUser) :=
  try_catch
    (now ← get_clock;
     payload ← lift (verifyToken token now);
     user ← user_findFirst (userId (jc_payload payload)) (tenantId (jc_payload payload));
     match user with
     | None => ret None
     | Some (u, r) =>
         ret (Some {| au_id := user_id u;
                      au_email := user_email u;
                      au_firstName := user_firstName u;
                      au_lastName := user_lastName u;
                      au_tenantId := user_tenantId u;
                      au_roleId := user_roleId u;
                      au_role := r |})
     end)
    (fun _ => ret None).

Definition canAccessResource (user : AuthUser) (resource action : string)
  : result bool :=
  match au_role user with
  | None => inr false
  | Some r => hasPermission (role_permissions r) resource action
  end.

(** ** Query engine: the part of the store the claims depend on *)

Definition scalar_eqb (a b : jsval) : bool :=
  match a, b with
  | JStr x, JStr y => String.eqb x y
  | JNum x, JNum y => x =? y
  | JBool x, JBool y => Bool.eqb x y
  | _, _ => false
  end.

(** One entry [k: v] of a [where] object against a row: a string,
    number or boolean is an equality filter on column [k], [undefined]
    is no filter, [null] asks for a missing value; nested filters
    ([OR], [contains], ...) are the engine's. *)
Definition field_ok (k : string) (v : jsval) (r : gmap string jsval) : bool :=
  match v with
  | JUndefined => true
  | JNull => match r !! k with None | Some JNull => true | Some _ => false end
  | JStr _ | JNum _ | JBool _ => scalar_eqb (default JNull (r !! k)) v
  | JArr _ | JObj _ => engine_filter k v r
  end.

(** The entries of a [where] object are a conjunction. *)
Definition matches (where_ : gmap string jsval) (r : gmap string jsval) : bool :=
  forallb (fun kv => field_ok kv.1 kv.2 r) (map_to_list where_).

(** Timestamps and numbers are [JNum]; this is the sort key of a column. *)
Definition num_field (f : string) (r : gmap string jsval) : Z :=
  match r !! f with Some (JNum z) => z | _ => 0 end.

Definition desc_by (f : string) (a b : gmap string jsval) : Prop :=
  num_field f b <= num_field f a.

Definition asc_by (f : string) (a b : gmap string jsval) : Prop :=
  num_field f a <= num_field f b.

#[global] Instance desc_by_dec f a b : Decision (desc_by f a b) := Z_le_dec _ _.
#[global] Instance asc_by_dec f a b : Decision (asc_by f a b) := Z_le_dec _ _.

(** [orderBy: { column: 'desc' | 'asc' }] sorts on that column; no
    [orderBy] leaves the table order; anything else is the engine's. *)
Definition order_rows (orderBy : jsval) (rows : list (gmap string jsval))
  : list (gmap string jsval) :=
  match orderBy with
  | JUndefined => rows
  | JObj m =>
      match map_to_list m with
      | [(f, JStr dir)] =>
          if String.eqb dir "desc" then merge_sort (desc_by f) rows
          else if String.eqb dir "asc" then merge_sort (asc_by f) rows
          else engine_order orderBy rows
      | _ => engine_order orderBy rows
      end
  | _ => engine_order orderBy rows
  end.

(** [skip] then [take]; both are non-negative wherever a theorem below
    looks at the rows (a negative value is read as 0 here). *)
Definition slice (skip take : Z) (rows : list (gmap string jsval))
  : list (gmap string jsval) :=
  firstn (Z.to_nat take) (skipn (Z.to_nat skip) rows).

Definition run_query (q : query) (rows : list (gmap string jsval))
  : list (gmap string jsval) :=
  slice (q_skip q) (q_take q)
        (order_rows (q_orderBy q) (List.filter (matches (q_where q)) rows)).

Definition table (model : string) (w : World) : list (gmap string jsval) :=
  default [] (w_tables w !! model).

Definition findMany (model : string) (q : query) : M (list (gmap string jsval)) :=
  store_call (EvFindMany model q) (fun w => (run_query q (table model w), w)).

Definition count (model : string) (where_ : gmap string jsval) : M Z :=
  store_call (EvCount model where_)
    (fun w => (Z.of_nat (length (List.filter (matches where_) (table model w))), w)).

(** [prisma.account.create({ data })]: the engine adds the key and the
    column defaults of the schema. *)
Definition new_row (data : gmap string jsval) (w : World) : gmap string jsval :=
  <["id" := JStr (pretty (w_next_id w))]>
    (data ∪ {[ "isActive" := JBool true;
               "createdAt" := JNum (Z.of_N (w_clock w));
               "updatedAt" := JNum (Z.of_N (w_clock w)) ]}).

Definition create (model : string) (data : gmap string jsval) : M (gmap string jsval) :=
  store_call (EvCreate model data)
    (fun w => let r := new_row data w in (r, add_row model r w)).

Definition auditLog_create (r : AuditRow) : M unit :=
  store_call (EvAuditCreate r) (fun w => (tt, add_audit r w)).

(** ** Tenant scoping and pagination ([src/lib/database.ts]) *)

(** [baseQuery.where] on [undefined] or [null] is a [TypeError]. *)
Definition withTenantFilter (tenantId : string) (baseQuery : jsval) : result jsval :=
  match baseQuery with
  | JUndefined | JNull =>
      inl (Exn KTypeError "Cannot read properties of undefined (reading 'where')")
  | _ =>
      inr (JObj (<["where" :=
                     JObj (<["tenantId" := JStr tenantId]>
                             (spread (js_get baseQuery "where")))]>
                   (spread baseQuery)))
  end.

(** [page] and [limit] are [None] when absent (or [NaN]). *)
Record PaginationParams := {
  p_page : option Z;
  p_limit : option Z;
  p_where : jsval;
  p_include : jsval;
  p_orderBy : jsval
}.

Record PageMeta := {
  page : Z;
  limit : Z;
  total : Z;
  totalPages : Z;
  hasNext : bool;
  hasPrev : bool
}.

Record PaginatedResult := {
  data : list (gmap string jsval);
  meta : PageMeta
}.

(** [n || d] on an optional number: absent and 0 are falsy. *)
Definition num_or (n : option Z) (d : Z) : Z :=
  match n with
  | Some z => if z =? 0 then d else z
  | None => d
  end.

(** [Math.ceil(a / b)] for integers, [b] not 0. The quotient of two
    doubles is rounded, but never onto an integer it does not equal
    while the count [a] and [b] are within [2^53]. *)
Definition ceil_div (a b : Z) : Z := - ((- a) / b).

(** Numbers are IEEE 754 doubles: 53 significant bits. [to_double z] is
    the double nearest to the integer [z] (a tie goes to the even
    significand), for [z] below the overflow threshold. Every integer of
    magnitude at most [2^53] is a double. *)
Definition to_double (z : Z) : Z :=
  let a := Z.abs z in
  if a <=? 2 ^ 53 then z
  else
    let e := Z.log2 a - 52 in
    let q := a / 2 ^ e in
    let r := a mod 2 ^ e in
    let up := (2 ^ (e - 1) <? r) || ((2 ^ (e - 1) =? r) && Z.odd q) in
    Z.sgn z * ((if up then q + 1 else q) * 2 ^ e).

(** [(page - 1) * limit] as the code computes it, on doubles. *)
Definition js_skip (page limit : Z) : Z := to_double (to_double (page - 1) * limit).

Definition paginate_page (params : PaginationParams) : Z := num_or (p_page params) 1.

Definition paginate_limit (params : PaginationParams) : Z :=
  Z.min (num_or (p_limit params) 10) 100.

Definition paginate_where (params : PaginationParams) (tenantId : string)
  : gmap string jsval :=
  <["isActive" := JBool true]>
    (<["tenantId" := JStr tenantId]> (spread (p_where params))).

(** The argument of [model.findMany] built by [paginate]. The model
    computes on integers; [skip] is the code's [js_skip] as long as the
    product stays within [2^53] ([js_skip_exact]), and beyond that the
    code rounds ([js_skip_rounds]). *)
Definition paginate_query (params : PaginationParams) (tenantId : string) : query :=
  {| q_where := paginate_where params tenantId;
     q_include := p_include params;
     q_orderBy := js_or (p_orderBy params) (JObj {[ "createdAt" := JStr "desc" ]});
     q_skip := (paginate_page params - 1) * paginate_limit params;
     q_take := paginate_limit params |}.

Definition paginate (model : string) (params : PaginationParams) (tenantId : string)
  : M PaginatedResult :=
  let page := paginate_page params in
  let limit := paginate_limit params in
  let where_ := paginate_where params tenantId in
  '(data, total) ← promise_all2 (findMany model (paginate_query params tenantId))
                                (count model where_);
  let totalPages := ceil_div total limit in
  ret {| data := data;
         meta := {| page := page; limit := limit; total := total;
                    totalPages := totalPages;
                    hasNext := page <? totalPages;
                    hasPrev := 1 <? page |} |}.

(** ** Audit recorder ([src/lib/database.ts]) *)

Record AuditEntry := {
  ae_tenantId : string;
  ae_userId : option string;
  ae_action : string;
  ae_resourceType : string;
  ae_resourceId : option string;
  ae_beforeData : jsval;
  ae_afterData : jsval;
  ae_ipAddress : option string;
  ae_userAgent : option string
}.

(** [v ? JSON.stringify(v) : null]. *)
Definition stringify_or_null (v : jsval) : result (option string) :=
  if truthy v then
    match JSON_stringify v with
    | inr s => inr (Some s)
    | inl e => inl e
    end
  else inr None.

Definition createAuditLog (e : AuditEntry) : M unit :=
  try_catch
    (before ← lift (stringify_or_null (ae_beforeData e));
     after ← lift (stringify_or_null (ae_afterData e));
     auditLog_create
       {| al_tenantId := ae_tenantId e;
          al_userId := ae_userId e;
          al_action := ae_action e;
          al_resourceType := ae_resourceType e;
          al_resourceId := ae_resourceId e;
          al_beforeData := before;
          al_afterData := after;
          al_ipAddress := ae_ipAddress e;
          al_userAgent := ae_userAgent e |})
    (fun error =>
       console_error ("Failed to create audit log: " +:+ exn_message error)).

(** ** Accounts route ([src/app/api/accounts/route.ts]) *)

(** Header names are lower-case; [req_body] is what [request.json()] gives. *)
Record Request := {
  req_headers : gmap string string;
  req_searchParams : gmap string string;
  req_body : result jsval
}.

Inductive ResponseBody :=
| BodyPage (r : PaginatedResult)
| BodyAccount (r : gmap string jsval)
| BodyError (msg : string)
| BodyValidation (details : string).

Record Response := {
  status : Z;
  body : ResponseBody
}.

(** [x || d] on an optional string. *)
Definition str_or (x : option string) (d : string) : string :=
  match x with
  | Some s => if String.eqb s "" then d else s
  | None => d
  end.

Definition auth_required : exn := Exn KError "Authentication required".
Definition invalid_token : exn := Exn KError "Invalid token".

Definition authenticate (request : Request) : M AuthUser :=
  match replace_first "Bearer " "" <$> (req_headers request !! "authorization") with
  | None => throw auth_required
  | Some token =>
      if String.eqb token "" then throw auth_required
      else
        user ← getUserByToken token;
        match user with
        | None => throw invalid_token
        | Some u => ret u
        end
  end.

Definition obj (l : list (string * jsval)) : jsval := JObj (list_to_map l).

Definition contains_insensitive (s : string) : jsval :=
  obj [("contains", JStr s); ("mode", JStr "insensitive")].

Definition user_select : jsval :=
  obj [("select", obj [("id", JBool true); ("firstName", JBool true);
                       ("lastName", JBool true); ("email", JBool true)])].

Definition GET_include : jsval :=
  obj [("owner", user_select);
       ("contacts",
        obj [("where", obj [("isActive", JBool true)]);
             ("select", obj [("id", JBool true); ("firstName", JBool true);
                             ("lastName", JBool true); ("email", JBool true);
                             ("isPrimary", JBool true)])]);
       ("opportunities",
        obj [("where", obj [("isActive", JBool true)]);
             ("select", obj [("id", JBool true); ("name", JBool true);
                             ("amount", JBool true);
                             ("stage", obj [("select", obj [("name", JBool true)])])])]);
       ("_count",
        obj [("select", obj [("contacts", JBool true); ("opportunities", JBool true)])])].

Definition set_if (k : string) (s : string) (v : jsval) (m : gmap string jsval)
  : gmap string jsval :=
  if String.eqb s "" then m else <[k := v]> m.

Definition GET_where (request : Request) : gmap string jsval :=
  let sp := req_searchParams request in
  let search := str_or (sp !! "search") "" in
  let industry := str_or (sp !! "industry") "" in
  let accountType := str_or (sp !! "accountType") "" in
  let ownerId := str_or (sp !! "ownerId") "" in
  set_if "ownerId" ownerId (JStr ownerId)
    (set_if "accountType" accountType (JStr accountType)
       (set_if "industry" industry (JStr industry)
          (set_if "OR" search
             (JArr [obj [("name", contains_insensitive search)];
                    obj [("website", contains_insensitive search)];
                    obj [("city", contains_insensitive search)]])
             {[ "isActive" := JBool true ]}))).

Definition GET_params (request : Request) : PaginationParams :=
  let sp := req_searchParams request in
  {| p_page := parseInt (str_or (sp !! "page") "1");
     p_limit := parseInt (str_or (sp !! "limit") "10");
     p_where := JObj (GET_where request);
     p_include := GET_include;
     p_orderBy := obj [("updatedAt", JStr "desc")] |}.

Definition GET (request : Request) : M Response :=
  try_catch
    (user ← authenticate request;
     result ← paginate "account" (GET_params request) (au_tenantId user);
     ret {| status := 200; body := BodyPage result |})
    (fun error =>
       _ ← console_error ("GET /api/accounts error: " +:+ exn_message error);
       if String.eqb (exn_message error) "Authentication required"
       then ret {| status := 401; body := BodyError "Authentication required" |}
       else if String.eqb (exn_message error) "Invalid token"
       then ret {| status := 401; body := BodyError "Invalid token" |}
       else ret {| status := 500; body := BodyError "Internal server error" |}).

Definition str_of (v : jsval) : option string :=
  match v with JStr s => Some s | _ => None end.

Definition POST_data (user : AuthUser) (data : gmap string jsval) : gmap string jsval :=
  <["ownerId" := js_or (default JUndefined (data !! "ownerId")) (JStr (au_id user))]>
    (<["tenantId" := JStr (au_tenantId user)]> data).

Definition POST (request : Request) : M Response :=
  try_catch
    (user ← authenticate request;
     body ← lift (req_body request);
     data ← lift (createAccountSchema_parse body);
     account ← create "account" (POST_data user data);
     _ ← createAuditLog
           {| ae_tenantId := au_tenantId user;
              ae_userId := Some (au_id user);
              ae_action := "CREATE";
              ae_resourceType := "account";
              ae_resourceId := account !! "id" ≫= str_of;
              ae_beforeData := JUndefined;
              ae_afterData := JObj account;
              ae_ipAddress :=
                Some (str_or (req_headers request !! "x-forwarded-for") "unknown");
              ae_userAgent :=
                Some (str_or (req_headers request !! "user-agent") "unknown") |};
     ret {| status := 201; body := BodyAccount account |})
    (fun error =>
       _ ← console_error ("POST /api/accounts error: " +:+ exn_message error);
       match exn_kind_of error with
       | KZodError => ret {| status := 400; body := BodyValidation (exn_message error) |}
       | _ =>
           if is_substring "Authentication" (exn_message error)
           then ret {| status := 401; body := BodyError (exn_message error) |}
           else ret {| status := 500; body := BodyError "Internal server error" |}
       end).

End Code.

(** The user lookup belongs to authentication; every other call to the
    store is data access. *)
Definition is_data_access (ev : event) : bool :=
  match ev with
  | EvUserFindFirst _ _ => false
  | _ => true
  end.

(** Between [w] and [w'] no table and no audit row changed, and no call
    for data was issued. *)
Definition untouched (w w' : World) : Prop :=
  w_tables w' = w_tables w /\ w_audit w' = w_audit w /\
  exists evs, w_trace w' = w_trace w ++ evs /\ existsb is_data_access evs = false.

(** ** A concrete platform

    An instance of [Platform] that computes: segments are written in a
    sixteen-letter alphabet (so they never contain a dot or a comma) and
    times in binary.  The examples and the instances of the theorems
    below run on it. *)

Definition nibble_char (n : nat) : ascii := ascii_of_nat (97 + n)%nat.

Definition hex_char (a : ascii) : string :=
  String (nibble_char (nat_of_ascii a / 16)%nat)
         (String (nibble_char (nat_of_ascii a mod 16)%nat) EmptyString).

Fixpoint hex (s : string) : string :=
  match s with
  | EmptyString => EmptyString
  | String a r => hex_char a +:+ hex r
  end.

Definition unnibble (c : ascii) : option nat :=
  let n := nat_of_ascii c in
  if ((97 <=? n) && (n <? 113))%nat then Some (n - 97)%nat else None.

Fixpoint unhex (s : string) : option string :=
  match s with
  | EmptyString => Some EmptyString
  | String h (String l r) =>
      match unnibble h, unnibble l, unhex r with
      | Some a, Some b, Some t => Some (String (ascii_of_nat (16 * a + b)%nat) t)
      | _, _, _ => None
      end
  | String _ EmptyString => None
  end.

Fixpoint pos_bits (p : positive) : string :=
  match p with
  | xH => EmptyString
  | xO q => String "0" (pos_bits q)
  | xI q => String "1" (pos_bits q)
  end.

Definition N_bits (n : N) : string :=
  match n with
  | N0 => "z"
  | Npos p => String "p" (pos_bits p)
  end.

Fixpoint bits_pos (s : string) : option positive :=
  match s with
  | EmptyString => Some xH
  | String c r =>
      match bits_pos r with
      | Some q =>
          if Ascii.eqb c "0" then Some (xO q)
          else if Ascii.eqb c "1" then Some (xI q)
          else None
      | None => None
      end
  end.

Definition bits_N (s : string) : option N :=
  match s with
  | String c r =>
      if Ascii.eqb c "z" then (if String.eqb r "" then Some N0 else None)
      else if Ascii.eqb c "p" then Npos <$> bits_pos r
      else None
  | EmptyString => None
  end.

Definition demo_encode (c : JwtClaims) : string :=
  hex (userId (jc_payload c)) +:+ "," +:+ hex (tenantId (jc_payload c)) +:+ "," +:+
  hex (roleId (jc_payload c)) +:+ "," +:+ hex (email (jc_payload c)) +:+ "," +:+
  N_bits (jc_iat c) +:+ "," +:+ N_bits (jc_exp c).

Definition demo_decode (s : string) : option JwtClaims :=
  match split_on "," s with
  | [u; t; r; e; i; x] =>
      match unhex u, unhex t, unhex r, unhex e, bits_N i, bits_N x with
      | Some u', Some t', Some r', Some e', Some i', Some x' =>
          Some {| jc_payload := {| userId := u'; tenantId := t'; roleId := r'; email := e' |};
                  jc_iat := i'; jc_exp := x' |}
      | _, _, _, _, _, _ => None
      end
  | _ => None
  end.

Definition demo_hmac (key msg : string) : string := hex (key +:+ msg).

Fixpoint demo_digits (acc : Z) (s : string) : option Z :=
  match s with
  | EmptyString => Some acc
  | String c r =>
      let n := nat_of_ascii c in
      if ((48 <=? n) && (n <? 58))%nat
      then demo_digits (10 * acc + Z.of_nat (n - 48)) r
      else None
  end.

Definition demo_parseInt (s : string) : option Z :=
  match s with
  | EmptyString => None
  | String c r => if Ascii.eqb c "-" then Z.opp <$> demo_digits 0 r else demo_digits 0 s
  end.

Definition demo_schema (body : jsval) : result (gmap string jsval) :=
  match body with
  | JObj m =>
      match m !! "name" with
      | Some (JStr n) =>
          if String.eqb n "" then inl (Exn KZodError "Account name is required")
          else inr m
      | _ => inl (Exn KZodError "Required")
      end
  | _ => inl (Exn KZodError "Expected object")
  end.

Definition demo_platform : Platform :=
  {| jwt_encode := demo_encode;
     jwt_decode := demo_decode;
     hmac := demo_hmac;
     env_JWT_SECRET := None;
     env_JWT_EXPIRES_IN := None;
     parseInt := demo_parseInt;
     JSON_stringify := fun _ => inr "{}";
     createAccountSchema_parse := demo_schema;
     engine_filter := fun _ _ _ => true;
     engine_order := fun _ rows => rows |}.

Definition demo_payload : TokenPayload :=
  {| userId := "u1"; tenantId := "tenant-a"; roleId := "r1"; email := "admin@demo.crm.com" |}.

(** ** A concrete store *)

Definition demo_role_rep : RoleRow :=
  {| role_id := "r1"; role_name := "Sales Rep";
     role_permissions := perm_obj DEFAULT_PERMISSIONS_SalesRep |}.

(** A role that may read reports and nothing else. *)
Definition demo_role_reports : RoleRow :=
  {| role_id := "r2"; role_name := "Reports";
     role_permissions := perm_obj {[ "reports" := ["read"] ]} |}.

Definition demo_user (id role : string) (active : bool) : UserRow :=
  {| user_id := id; user_email := id +:+ "@demo.crm.com";
     user_firstName := None; user_lastName := None;
     user_tenantId := "tenant-a"; user_roleId := Some role;
     user_isActive := active |}.

Definition demo_account (tenant : string) (created updated : Z) : gmap string jsval :=
  list_to_map [("tenantId", JStr tenant); ("isActive", JBool true);
               ("createdAt", JNum created); ("updatedAt", JNum updated)].

Definition demo_world (accounts : list (gmap string jsval)) (faults : list (option exn))
  : World :=
  {| w_users := [demo_user "u1" "r1" true; demo_user "u2" "r2" true;
                 demo_user "u3" "r1" false];
     w_roles := [demo_role_rep; demo_role_reports];
     w_tables := {[ "account" := accounts ]};
     w_audit := [];
     w_faults := faults;
     w_trace := [];
     w_console := [];
     w_clock := 1000;
     w_next_id := 1 |}.

(** Twenty-five accounts of tenant-a and one of tenant-b. *)
Definition demo_accounts_25 : list (gmap string jsval) :=
  demo_account "tenant-b" 500 500 ::
  map (fun i => demo_account "tenant-a" (Z.of_nat i) (100 - Z.of_nat i)) (seq 1 25).

Definition demo_params (p l : option Z) : PaginationParams :=
  {| p_page := p; p_limit := l; p_where := JUndefined;
     p_include := JUndefined; p_orderBy := JUndefined |}.

Definition demo_token (user : string) : string :=
  @generateToken demo_platform
    {| userId := user; tenantId := "tenant-a"; roleId := "r"; email := "e" |} 500.

Definition demo_request (user : string) (payload : result jsval) : Request :=
  {| req_headers := {[ "authorization" := "Bearer " +:+ demo_token user ]};
     req_searchParams := ∅;
     req_body := payload |}.

Definition demo_body : jsval := JObj {[ "name" := JStr "Acme" ]}.

(** Two accounts: the older one was updated last. *)
Definition demo_accounts_2 : list (gmap string jsval) :=
  [demo_account "tenant-a" 1 10; demo_account "tenant-a" 2 5].

Definition demo_claims (user : string) : JwtClaims :=
  issued_claims {| userId := user; tenantId := "tenant-a"; roleId := "r"; email := "e" |}
                86400 500.

(** What [jsonwebtoken] needs of its codec and MAC: the payload decodes
    back, and no segment contains the separator. *)
Class PlatformLaws (P : Platform) : Prop := {
  decode_encode : forall c, jwt_decode (jwt_encode c) = Some c;
  encode_no_dot : forall c, has_char "." (jwt_encode c) = false;
  hmac_no_dot : forall k m, has_char "." (hmac k m) = false
}.

(** * The rest of the code

    The functions of [src/lib/auth.ts], [src/lib/database.ts] and the
    two routes that the first part did not need. *)

(** ** Password policy ([src/lib/auth.ts]) *)

(** [minLength] is a number of characters; a password is the sequence of
    its code units (those below 256). *)
Record PasswordPolicy := {
  minLength : Z;
  requireUppercase : bool;
  requireLowercase : bool;
  requireNumbers : bool;
  requireSpecialChars : bool
}.

Definition DEFAULT_PASSWORD_POLICY : PasswordPolicy :=
  {| minLength := 8; requireUppercase := true; requireLowercase := true;
     requireNumbers := true; requireSpecialChars := true |}.

Definition in_range (lo hi : nat) (c : ascii) : bool :=
  ((lo <=? nat_of_ascii c) && (nat_of_ascii c <=? hi))%nat.

(** The character classes [[A-Z]], [[a-z]] and [\d]. *)
Definition is_upper : ascii -> bool := in_range 65 90.
Definition is_lower : ascii -> bool := in_range 97 122.
Definition is_digit : ascii -> bool := in_range 48 57.

(** The members of the special-character class, the double quote (code
    34) among them. *)
Definition special_chars : string :=
  "!@#$%^&*()_+-=[]{};':" +:+ String (ascii_of_nat 34) "\|,.<>?".

Definition is_special (c : ascii) : bool := has_char c special_chars.

(** [regex.test(s)] for a one-character class. *)
Definition test_class (class : ascii -> bool) (s : string) : bool :=
  existsb class (list_ascii_of_string s).

Record PasswordCheck := {
  isValid : bool;
  errors : list string
}.

(** [if (cond) errors.push(msg)]. *)
Definition push_if (cond : bool) (msg : string) : list string :=
  if cond then [msg] else [].

Definition validatePassword (password : string) (policy : PasswordPolicy) : PasswordCheck :=
  let errors :=
    push_if (Z.of_nat (String.length password) <? minLength policy)
            ("Password must be at least " +:+ pretty (minLength policy) +:+
             " characters long") ++
    push_if (requireUppercase policy && negb (test_class is_upper password))
            "Password must contain at least one uppercase letter" ++
    push_if (requireLowercase policy && negb (test_class is_lower password))
            "Password must contain at least one lowercase letter" ++
    push_if (requireNumbers policy && negb (test_class is_digit password))
            "Password must contain at least one number" ++
    push_if (requireSpecialChars policy && negb (test_class is_special password))
            "Password must contain at least one special character" in
  {| isValid := (length errors =? 0)%nat; errors := errors |}.

(** ** Default roles ([src/lib/auth.ts]) *)

Definition DEFAULT_PERMISSIONS_Admin : gmap string (list string) :=
  list_to_map
    [ ("users", ["read"; "write"]); ("accounts", ["read"; "write"]);
      ("contacts", ["read"; "write"]); ("leads", ["read"; "write"]);
      ("opportunities", ["read"; "write"]); ("reports", ["read"]);
      ("settings", ["read"; "write"]) ].

Definition DEFAULT_PERMISSIONS_SalesManager : gmap string (list string) :=
  list_to_map
    [ ("accounts", ["read"; "write"]); ("contacts", ["read"; "write"]);
      ("leads", ["read"; "write"]); ("opportunities", ["read"; "write"]);
      ("activities", ["read"; "write"]); ("tasks", ["read"; "write"]);
      ("reports", ["read"]) ].

(** ** Updates of the store *)

Definition set_table (model : string) (rows : list (gmap string jsval)) (w : World) : World :=
  MkWorld (w_users w) (w_roles w) (<[model := rows]> (w_tables w))
          (w_audit w) (w_faults w) (w_trace w) (w_console w) (w_clock w)
          (w_next_id w).

(** A call to the store that is not one of the traced kinds (the trace
    lists the user lookup by id, reads, counts and creations): it
    consumes its outcome from [w_faults] like any other call, and [op]
    may itself reject. *)
Definition store_exec {A} (op : World -> result A * World) : M A :=
  fun w =>
    match next_failure w with
    | Some e => (inl e, set_faults (tail (w_faults w)) w)
    | None => op (set_faults (tail (w_faults w)) w)
    end.

Definition record_not_found : exn := Exn KPrismaError "Record to update not found.".

Section MoreCode.
Context {P : Platform}.

(** The first row that [where_] admits gets the fields of [data];
    [None] when no row does. *)
Fixpoint update_first (where_ data : gmap string jsval) (rows : list (gmap string jsval))
  : option (list (gmap string jsval)) :=
  match rows with
  | [] => None
  | r :: rest =>
      if matches where_ r then Some ((data ∪ r) :: rest)
      else cons r <$> update_first where_ data rest
  end.

(** [model.update({ where, data })]: rejects when no row matches. *)
Definition update (model : string) (where_ data : gmap string jsval) : M unit :=
  store_exec
    (fun w =>
       match update_first where_ data (table model w) with
       | Some rows => (inr tt, set_table model rows w)
       | None => (inl record_not_found, w)
       end).

(** ** Soft delete ([src/lib/database.ts]) *)

Definition softDelete (model id tenantId : string) : M unit :=
  update model
         (list_to_map [("id", JStr id); ("tenantId", JStr tenantId)])
         {[ "isActive" := JBool false ]}.

(** ** Global search ([src/lib/database.ts]) *)

(** [select]: the listed columns of a row (selected relations are not
    part of a row here, as with [include]). *)
Definition select_fields (cols : list string) (r : gmap string jsval) : gmap string jsval :=
  list_to_map (omap (fun k => pair k <$> r !! k) cols).

Definition contains_any (cols : list string) (q : string) : jsval :=
  JArr (map (fun c => obj [(c, contains_insensitive q)]) cols).

(** [findMany({ where, take: 5, select })]. The selected columns are
    the scalar ones; the nested selections ([owner], [account], [stage])
    are joins with other tables, which rows of the model do not carry. *)
Definition search_query (where_ : gmap string jsval) : query :=
  {| q_where := where_; q_include := JUndefined; q_orderBy := JUndefined;
     q_skip := 0; q_take := 5 |}.

Definition search_accounts_where (tenantId q : string) : gmap string jsval :=
  list_to_map [("tenantId", JStr tenantId); ("isActive", JBool true);
               ("OR", contains_any ["name"; "website"; "industry"] q)].

Definition search_contacts_where (tenantId q : string) : gmap string jsval :=
  list_to_map [("tenantId", JStr tenantId); ("isActive", JBool true);
               ("OR", contains_any ["firstName"; "lastName"; "email"; "title"] q)].

Definition search_leads_where (tenantId q : string) : gmap string jsval :=
  list_to_map [("tenantId", JStr tenantId); ("isConverted", JBool false);
               ("OR", contains_any ["firstName"; "lastName"; "email"; "company"] q)].

Definition search_opportunities_where (tenantId q : string) : gmap string jsval :=
  list_to_map [("tenantId", JStr tenantId); ("isActive", JBool true);
               ("name", contains_insensitive q)].

(** [entities.includes(name)]. *)
Definition includes_str (name : string) (entities : list string) : bool :=
  existsb (String.eqb name) entities.

(** One [if (entities.includes(key)) results[key] = await findMany(...)]. *)
Definition search_step (entities : list string) (key model : string)
           (where_ : gmap string jsval) (cols : list string)
           (results : gmap string (list (gmap string jsval)))
  : M (gmap string (list (gmap string jsval))) :=
  if includes_str key entities then
    rows ← findMany model (search_query where_);
    ret (<[key := map (select_fields cols) rows]> results)
  else ret results.

Definition default_entities : list string :=
  ["accounts"; "contacts"; "leads"; "opportunities"].

(** [entities] is [None] when the argument is left out. *)
Definition globalSearch (tenantId q : string) (entities : option (list string))
  : M (gmap string (list (gmap string jsval))) :=
  let ents := default default_entities entities in
  r1 ← search_step ents "accounts" "account" (search_accounts_where tenantId q)
                   ["id"; "name"; "industry"] ∅;
  r2 ← search_step ents "contacts" "contact" (search_contacts_where tenantId q)
                   ["id"; "firstName"; "lastName"; "email"; "title"] r1;
  r3 ← search_step ents "leads" "lead" (search_leads_where tenantId q)
                   ["id"; "firstName"; "lastName"; "email"; "company"; "status"] r2;
  search_step ents "opportunities" "opportunity" (search_opportunities_where tenantId q)
              ["id"; "name"; "amount"] r3.

End MoreCode.

(** ** Comparing permission sets *)

(** Every action [p] lists for a resource, [p'] lists for it too. *)
Definition perm_le (p p' : gmap string (list string)) : bool :=
  forallb (fun kv => match p' !! kv.1 with
                     | Some acts' => forallb (fun a => existsb (String.eqb a) acts') kv.2
                     | None => false
                     end)
          (map_to_list p).

(** A permission entry that is neither a list nor a string, and truthy. *)
Definition not_a_list (v : jsval) : bool :=
  match v with
  | JBool b => b
  | JNum z => negb (z =? 0)
  | JObj _ => true
  | _ => false
  end.

Definition includes_type_error : exn := Exn KTypeError "includes is not a function".

Definition b2z (b : bool) : Z := if b then 1 else 0.

Fixpoint count_class (class : ascii -> bool) (s : string) : Z :=
  match s with
  | EmptyString => 0
  | String c r => b2z (class c) + count_class class r
  end.

(** What sorting needs of the engine's own orderings: they reorder, and
    neither drop nor invent rows. *)
Class EngineLaws (P : Platform) : Prop := {
  engine_order_perm : forall orderBy rows, engine_order orderBy rows ≡ₚ rows
}.

(** The same request for another page. *)
Definition with_page (params : PaginationParams) (p : Z) : PaginationParams :=
  {| p_page := Some p; p_limit := p_limit params; p_where := p_where params;
     p_include := p_include params; p_orderBy := p_orderBy params |}.

(** The row [createAuditLog] writes for an entry whose snapshots
    serialize to [before] and [after]. *)
Definition audit_row (e : AuditEntry) (before after : option string) : AuditRow :=
  {| al_tenantId := ae_tenantId e;
     al_userId := ae_userId e;
     al_action := ae_action e;
     al_resourceType := ae_resourceType e;
     al_resourceId := ae_resourceId e;
     al_beforeData := before;
     al_afterData := after;
     al_ipAddress := ae_ipAddress e;
     al_userAgent := ae_userAgent e |}.

(** The keys of the rows of a table. *)
Definition row_id (r : gmap string jsval) : option string :=
  match r !! "id" with Some (JStr s) => Some s | _ => None end.

Definition row_ids (rows : list (gmap string jsval)) : list string := omap row_id rows.

(** What [globalSearch] puts under one key: the selected columns [cols]
    of the rows the store returns for the filter [where_] on table
    [model], five at most; each of these rows is a row of that table,
    passes the whole filter, belongs to tenant [t] and has [flag = v]. *)
Definition search_hits {P : Platform}
           (model : string) (where_ : gmap string jsval) (cols : list string)
           (flag : string) (v : bool) (t : string) (w : World)
           (rows : list (gmap string jsval)) : Prop :=
  rows = map (select_fields cols) (run_query (search_query where_) (table model w)) /\
  (length rows <= 5)%nat /\
  forall r, In r (run_query (search_query where_) (table model w)) ->
    In r (table model w) /\ matches where_ r = true /\
    r !! "tenantId" = Some (JStr t) /\ r !! flag = Some (JBool v).

(** The request with another [authorization] header. *)
Definition with_auth (request : Request) (header : string) : Request :=
  {| req_headers := <["authorization" := header]> (req_headers request);
     req_searchParams := req_searchParams request;
     req_body := req_body request |}.

(** The [catch] block of POST. *)
Definition POST_catch (error : exn) : Response :=
  match exn_kind_of error with
  | KZodError => {| status := 400; body := BodyValidation (exn_message error) |}
  | _ =>
      if is_substring "Authentication" (exn_message error)
      then {| status := 401; body := BodyError (exn_message error) |}
      else {| status := 500; body := BodyError "Internal server error" |}
  end.

(** ** Login ([src/lib/auth.ts], [src/app/api/auth/login/route.ts]) *)

(** What login needs besides [Platform]: the [password_hash] column of
    a user row ([UserRow] has the columns the token path reads),
    [bcrypt.compare], and the [zod] schema of the login body, which
    gives the e-mail and the password. *)
Class LoginPlatform := {
  passwordHash : UserRow -> option string;
  bcrypt_compare : string -> string -> bool;
  loginSchema_parse : jsval -> result (string * string)
}.

Record LoginUser := {
  lu_id : string;
  lu_email : string;
  lu_firstName : option string;
  lu_lastName : option string;
  lu_role : option string;
  lu_permissions : option jsval
}.

Inductive LoginBody :=
| LoginOk (user : LoginUser) (token : string)
| LoginError (msg : string)
| LoginValidation (details : string).

Record LoginResponse := {
  l_status : Z;
  l_body : LoginBody
}.

Section Login.
Context {P : Platform} {L : LoginPlatform}.

(** [where: { email, isActive: true }]. *)
Definition email_matches (email_ : string) (u : UserRow) : bool :=
  String.eqb (user_email u) email_ && user_isActive u.

(** [!user.passwordHash] is false and [bcrypt.compare] accepts. *)
Definition password_ok (u : UserRow) (password : string) : bool :=
  match passwordHash u with
  | Some h => negb (String.eqb h "") && bcrypt_compare password h
  | None => false
  end.

Definition to_auth_user (u : UserRow) (r : option RoleRow) : AuthUser :=
  {| au_id := user_id u; au_email := user_email u;
     au_firstName := user_firstName u; au_lastName := user_lastName u;
     au_tenantId := user_tenantId u; au_roleId := user_roleId u; au_role := r |}.

Definition login_payload (u : UserRow) : TokenPayload :=
  {| userId := user_id u; tenantId := user_tenantId u;
     roleId := str_or (user_roleId u) ""; email := user_email u |}.

(** The update of [lastLogin] is a call to the store that changes no
    column of [UserRow]. *)
Definition authenticateUser (email_ password : string) : M (option (AuthUser * string)) :=
  user ← store_exec
           (fun w =>
              (inr (match List.find (email_matches email_) (w_users w) with
                    | Some u => Some (u, role_of (w_roles w) u)
                    | None => None
                    end), w));
  match user with
  | None => ret None
  | Some (u, r) =>
      if negb (password_ok u password) then ret None
      else
        _ ← store_exec (fun w => (inr tt, w));
        now ← get_clock;
        ret (Some (to_auth_user u r, generateToken (login_payload u) now))
  end.

Definition login_user (user : AuthUser) : LoginUser :=
  {| lu_id := au_id user; lu_email := au_email user;
     lu_firstName := au_firstName user; lu_lastName := au_lastName user;
     lu_role := role_name <$> au_role user;
     lu_permissions := role_permissions <$> au_role user |}.

Definition login_POST (request : Request) : M LoginResponse :=
  try_catch
    (payload ← lift (req_body request);
     creds ← lift (loginSchema_parse payload);
     let clientIP :=
       str_or (req_headers request !! "x-forwarded-for")
              (str_or (req_headers request !! "x-real-ip") "unknown") in
     let userAgent := str_or (req_headers request !! "user-agent") "unknown" in
     result ← authenticateUser creds.1 creds.2;
     match result with
     | None =>
         _ ← createAuditLog
               {| ae_tenantId := "";
                  ae_userId := None;
                  ae_action := "LOGIN_FAILED";
                  ae_resourceType := "user";
                  ae_resourceId := None;
                  ae_beforeData := JUndefined;
                  ae_afterData := JObj {[ "email" := JStr creds.1 ]};
                  ae_ipAddress := Some clientIP;
                  ae_userAgent := Some userAgent |};
         ret {| l_status := 401; l_body := LoginError "Invalid credentials" |}
     | Some (user, token) =>
         _ ← createAuditLog
               {| ae_tenantId := au_tenantId user;
                  ae_userId := Some (au_id user);
                  ae_action := "LOGIN_SUCCESS";
                  ae_resourceType := "user";
                  ae_resourceId := Some (au_id user);
                  ae_beforeData := JUndefined;
                  ae_afterData := JObj {[ "method" := JStr "password" ]};
                  ae_ipAddress := Some clientIP;
                  ae_userAgent := Some userAgent |};
         ret {| l_status := 200; l_body := LoginOk (login_user user) token |}
     end)
    (fun error =>
       _ ← console_error ("Login error: " +:+ exn_message error);
       match exn_kind_of error with
       | KZodError =>
           ret {| l_status := 400; l_body := LoginValidation (exn_message error) |}
       | _ => ret {| l_status := 500; l_body := LoginError "Internal server error" |}
       end).

End Login.

(** ** Default roles of a tenant ([src/lib/auth.ts]) *)

Definition add_role (r : RoleRow) (w : World) : World :=
  MkWorld (w_users w) (w_roles w ++ [r]) (w_tables w) (w_audit w) (w_faults w)
          (w_trace w) (w_console w) (w_clock w) (S (w_next_id w)).

(** The [data] of one [prisma.role.create]: [{ tenantId, ...roleData }]. *)
Definition role_data (tenantId name description : string)
           (permissions : gmap string (list string)) : gmap string jsval :=
  <["isSystemRole" := JBool true]>
    (<["permissions" := perm_obj permissions]>
       (<["description" := JStr description]>
          (<["name" := JStr name]> {[ "tenantId" := JStr tenantId ]}))).

(** The stored role, with the columns of [RoleRow]. *)
Definition role_of_data (id : string) (data : gmap string jsval) : RoleRow :=
  {| role_id := id;
     role_name := match data !! "name" with Some (JStr s) => s | _ => EmptyString end;
     role_permissions := default JNull (data !! "permissions") |}.

Definition role_create (data : gmap string jsval) : M unit :=
  store_call (EvCreate "role" data)
    (fun w => (tt, add_role (role_of_data (pretty (w_next_id w)) data) w)).

(** [for (const x of l) { await f(x) }]. *)
Fixpoint for_each {A} (f : A -> M unit) (l : list A) : M unit :=
  match l with
  | [] => ret tt
  | x :: rest => _ ← f x; for_each f rest
  end.

Definition default_roles : list (string * string * gmap string (list string)) :=
  [ ("Super Admin", "Full system access", DEFAULT_PERMISSIONS_SuperAdmin);
    ("Admin", "Tenant administration", DEFAULT_PERMISSIONS_Admin);
    ("Sales Manager", "Sales team management", DEFAULT_PERMISSIONS_SalesManager);
    ("Sales Rep", "Sales operations", DEFAULT_PERMISSIONS_SalesRep) ].

Definition createDefaultRoles (tenantId : string) : M unit :=
  for_each (fun role => role_create (role_data tenantId role.1.1 role.1.2 role.2))
           default_roles.

(** What a role grants, by name. *)
Definition role_summary (r : RoleRow) : string * jsval := (role_name r, role_permissions r).

(** The user a login with [email_] is checked against. *)
Definition login_candidate (email_ : string) (w : World) : option UserRow :=
  List.find (email_matches email_) (w_users w).

(** ** Concrete instances for the rest of the code *)

(** A serializer that rejects every value, as [JSON.stringify] does on a
    cyclic object. *)
Definition cyclic_platform : Platform :=
  {| jwt_encode := demo_encode;
     jwt_decode := demo_decode;
     hmac := demo_hmac;
     env_JWT_SECRET := None;
     env_JWT_EXPIRES_IN := None;
     parseInt := demo_parseInt;
     JSON_stringify := fun _ => inl (Exn KTypeError "Converting circular structure to JSON");
     createAccountSchema_parse := demo_schema;
     engine_filter := fun _ _ _ => true;
     engine_order := fun _ rows => rows |}.

Definition demo_login_schema (body : jsval) : result (string * string) :=
  match body with
  | JObj m =>
      match m !! "email", m !! "password" with
      | Some (JStr e), Some (JStr p) =>
          if String.eqb p "" then inl (Exn KZodError "Password is required")
          else inr (e, p)
      | _, _ => inl (Exn KZodError "Required")
      end
  | _ => inl (Exn KZodError "Expected object")
  end.

(** Every user has a password hash; the hash of [p] is [bcrypt:p] and the
    password of user [u] is [u-secret]. *)
Definition demo_login : LoginPlatform :=
  {| passwordHash := fun u => Some ("bcrypt:" +:+ user_id u +:+ "-secret");
     bcrypt_compare := fun p h => String.eqb h ("bcrypt:" +:+ p);
     loginSchema_parse := demo_login_schema |}.

Definition demo_login_body (email_ password : string) : jsval :=
  JObj (<["password" := JStr password]> {[ "email" := JStr email_ ]}).

Definition demo_login_request (email_ password : string) : Request :=
  {| req_headers := ∅; req_searchParams := ∅;
     req_body := inr (demo_login_body email_ password) |}.

(** An account row with an [id]. *)
Definition demo_row (id tenant : string) (created : Z) : gmap string jsval :=
  <["id" := JStr id]> (demo_account tenant created created).

Definition demo_rows : list (gmap string jsval) :=
  [demo_row "a1" "tenant-a" 1; demo_row "a2" "tenant-b" 2; demo_row "a3" "tenant-a" 3].

Definition demo_entry (before after : jsval) : AuditEntry :=
  {| ae_tenantId := "tenant-a"; ae_userId := Some "u1"; ae_action := "CREATE";
     ae_resourceType := "account"; ae_resourceId := None;
     ae_beforeData := before; ae_afterData := after;
     ae_ipAddress := None; ae_userAgent := None |}.

(** * Properties *)

(** ** Permission model *)

Lemma includes_In (s : string) (acts : list string) :
  existsb (is_str s) (map JStr acts) = true <-> In s acts.
Proof.
  induction acts as [|x acts IH]; simpl.
  - split; [discriminate | tauto].
  - rewrite orb_true_iff, IH, String.eqb_eq. tauto.
Qed.

Lemma perm_obj_lookup (p : gmap string (list string)) (k : string) :
  js_lookup (perm_obj p) k =
  match p !! k with
  | Some acts => JArr (map JStr acts)
  | None => if inherited k then builtin_member else JUndefined
  end.
Proof.
  unfold perm_obj, js_lookup. rewrite lookup_fmap. destruct (p !! k); reflexivity.
Qed.

Lemma js_lookup_own (m : gmap string jsval) (k : string) :
  inherited k = false -> js_lookup (JObj m) k = default JUndefined (m !! k).
Proof. intros Hk. unfold js_lookup. rewrite Hk. by destruct (m !! k). Qed.

Lemma listed_In (s : string) (o : option (list string)) :
  listed s o = true <-> exists acts, o = Some acts /\ In s acts.
Proof.
  destruct o as [acts|]; simpl.
  - rewrite includes_In. split; [eauto|]. by intros (x & [= ->] & Hx).
  - split; [discriminate|]. by intros (x & [=] & _).
Qed.

(** What [hasPermission] does on a permission set, case by case. *)
Lemma hasPermission_perm_obj (p : gmap string (list string)) (r a : string) :
  hasPermission (perm_obj p) r a =
  if listed "*" (p !! "*") then inr true
  else match p !! r with
       | Some _ => inr (listed a (p !! r) || listed "*" (p !! r))
       | None => if inherited r then inl includes_type_error else inr false
       end.
Proof.
  unfold hasPermission. change (truthy (perm_obj p)) with true. cbv zeta.
  rewrite (perm_obj_lookup p "*"), (perm_obj_lookup p r).
  change (inherited "*") with false. cbv iota.
  destruct (p !! "*") as [sacts|]; destruct (p !! r) as [acts|]; simpl;
    repeat match goal with |- context [existsb ?f ?l] => destruct (existsb f l) end;
    try reflexivity; destruct (inherited r); reflexivity.
Qed.

(** Away from the names of [Object.prototype], or on a resource with an
    entry of its own, the answer is a boolean. *)
Lemma hasPermission_perm_obj_bool (p : gmap string (list string)) (r a : string) :
  inherited r = false \/ is_Some (p !! r) ->
  hasPermission (perm_obj p) r a =
  inr (listed "*" (p !! "*") || (listed a (p !! r) || listed "*" (p !! r))).
Proof.
  intros Hr. rewrite hasPermission_perm_obj.
  destruct (listed "*" (p !! "*")); [reflexivity|].
  destruct (p !! r) as [acts|] eqn:Hp; [reflexivity|].
  destruct Hr as [->|[x Hx]]; [reflexivity|discriminate].
Qed.

(** The rule of the specification holds for every resource that has an
    entry of its own or is not named like a member of [Object.prototype]:
    there [hasPermission] returns a boolean, [true] exactly when the set
    has a ["*"] entry containing ["*"], or an entry for the resource
    containing the action or ["*"]. *)
Lemma hasPermission_iff_spec_own_names (p : gmap string (list string)) (r a : string) :
  inherited r = false \/ is_Some (p !! r) ->
  exists b, hasPermission (perm_obj p) r a = inr b /\ (b = true <-> isAllowed_spec p r a).
Proof.
  intros Hr. eexists. split; [by apply hasPermission_perm_obj_bool|].
  unfold isAllowed_spec. rewrite !orb_true_iff, !listed_In.
  split.
  - intros [H|[(x & Hx & Hin)|(x & Hx & Hin)]]; [by left| |]; right; eauto.
  - intros [H|(x & Hx & [Hin|Hin])]; [by left| |]; right; [left|right]; eauto.
Qed.

(** C3: the rule of the specification fails on the code for a resource
    named like a member of [Object.prototype] ([constructor],
    [toString], [__proto__], ...): when the set has no entry of its own
    for it and no ["*"] entry containing ["*"], the pair is not granted,
    yet [hasPermission] does not return [false]; the inherited member is
    read, it is truthy, and calling [includes] on it ends in a
    [TypeError]. *)
Theorem hasPermission_throws_on_inherited_name
        (p : gmap string (list string)) (r a : string) :
  inherited r = true -> p !! r = None -> listed "*" (p !! "*") = false ->
  ~ isAllowed_spec p r a /\
  hasPermission (perm_obj p) r a = inl includes_type_error.
Proof.
  intros Hin Hr Hstar. split.
  - intros [H|(acts & Hacts & _)]; [|congruence].
    apply listed_In in H. congruence.
  - by rewrite hasPermission_perm_obj, Hstar, Hr, Hin.
Qed.

Lemma hasPermission_throws_on_inherited_name_witness :
  ~ isAllowed_spec DEFAULT_PERMISSIONS_SalesRep "constructor" "read" /\
  hasPermission (perm_obj DEFAULT_PERMISSIONS_SalesRep) "constructor" "read" =
  inl includes_type_error.
Proof.
  apply (hasPermission_throws_on_inherited_name DEFAULT_PERMISSIONS_SalesRep
           "constructor" "read"); vm_compute; reflexivity.
Defined.

(** C10: a [null] or [undefined] permission set is denied, for every
    resource and action, without an exception. *)
Theorem hasPermission_missing_set (r a : string) :
  hasPermission JNull r a = inr false /\ hasPermission JUndefined r a = inr false.
Proof. split; reflexivity. Qed.

(** ** Token service *)

Lemma app_cons (c : ascii) (a b : string) : String c a +:+ b = String c (a +:+ b).
Proof. reflexivity. Qed.

Lemma app_empty (b : string) : EmptyString +:+ b = b.
Proof. reflexivity. Qed.

Lemma app_assoc_str (a b c : string) : (a +:+ b) +:+ c = a +:+ (b +:+ c).
Proof.
  induction a as [|d a IH]; [reflexivity|].
  rewrite !app_cons, IH. reflexivity.
Qed.

Lemma has_char_app (c : ascii) (a b : string) :
  has_char c (a +:+ b) = has_char c a || has_char c b.
Proof.
  induction a as [|d a IH]; [reflexivity|].
  rewrite app_cons. simpl. rewrite IH. apply orb_assoc.
Qed.

Lemma split_on_no_sep (sep : ascii) (s : string) :
  has_char sep s = false -> split_on sep s = [s].
Proof.
  induction s as [|d s IH]; simpl; [reflexivity|].
  intros [Hd Hs]%orb_false_elim. rewrite Hd, (IH Hs). reflexivity.
Qed.

Lemma split_on_app (sep : ascii) (a b : string) :
  has_char sep a = false ->
  split_on sep (a +:+ String sep b) = a :: split_on sep b.
Proof.
  induction a as [|d a IH].
  - intros _. rewrite app_empty. simpl. rewrite Ascii.eqb_refl. reflexivity.
  - rewrite app_cons. simpl. intros [Hd Hs]%orb_false_elim.
    rewrite Hd, (IH Hs). reflexivity.
Qed.

Lemma split_on_sep (sep : ascii) (a b : string) :
  has_char sep a = false ->
  split_on sep (a +:+ String sep EmptyString +:+ b) = a :: split_on sep b.
Proof. apply split_on_app. Qed.

Section TokenProperties.
Context {P : Platform}.

Lemma jwt_sign_segments (payload : TokenPayload) (secret : string) (expiresIn now : N) :
  has_char "." (jwt_encode (issued_claims payload expiresIn now)) = false ->
  has_char "." (hmac secret (jwt_header +:+ "." +:+
                             jwt_encode (issued_claims payload expiresIn now))) = false ->
  split_on "." (jwt_sign payload secret expiresIn now) =
  [jwt_header; jwt_encode (issued_claims payload expiresIn now);
   hmac secret (jwt_header +:+ "." +:+ jwt_encode (issued_claims payload expiresIn now))].
Proof.
  intros He Hm. unfold jwt_sign. cbv zeta.
  rewrite !app_assoc_str.
  rewrite split_on_sep by reflexivity.
  rewrite split_on_sep by exact He.
  rewrite split_on_no_sep by exact Hm. reflexivity.
Qed.

(** C8: a token issued for a claim set verifies, at any time before its
    expiry, to that claim set (with the issue and expiry times added). *)
Theorem verify_generate_roundtrip {L : PlatformLaws P} (c : TokenPayload) (issued now : N) :
  (now < issued + JWT_EXPIRES_IN)%N ->
  verifyToken (generateToken c issued) now =
  inr (issued_claims c JWT_EXPIRES_IN issued).
Proof.
  intros Hnow. unfold verifyToken, generateToken, jwt_verify.
  rewrite jwt_sign_segments by (apply encode_no_dot || apply hmac_no_dot).
  rewrite decode_encode, String.eqb_refl. simpl negb. cbv iota.
  simpl jc_exp.
  destruct (N.leb_spec (issued + JWT_EXPIRES_IN) now) as [Hle|Hlt]; [lia|reflexivity].
Qed.

(** C9: a token that is malformed, carries a wrong signature or is
    expired is rejected, and always with the one generic error. *)
Theorem verifyToken_fails_closed (token : string) (now : N) :
  token_malformed token = true \/ token_bad_signature token = true \/
  token_expired token now = true ->
  verifyToken token now = inl generic_error.
Proof.
  unfold token_malformed, token_bad_signature, token_expired, verifyToken, jwt_verify.
  destruct (split_on "." token) as [|h [|p [|sig [|x l]]]]; try reflexivity.
  destruct (jwt_decode p) as [claims|]; [|reflexivity].
  destruct (String.eqb sig (hmac JWT_SECRET (h +:+ "." +:+ p))); simpl; [|reflexivity].
  destruct (jc_exp claims <=? now)%N; [reflexivity|].
  intros [H|[H|H]]; discriminate.
Qed.

Lemma verifyToken_error_is_generic (token : string) (now : N) (e : exn) :
  verifyToken token now = inl e -> e = generic_error.
Proof.
  unfold verifyToken. destruct (jwt_verify token JWT_SECRET now); [|discriminate].
  by intros [= <-].
Qed.

Lemma verifyToken_accepts_iff (token : string) (now : N) :
  (exists claims, verifyToken token now = inr claims) <->
  token_malformed token = false /\ token_bad_signature token = false /\
  token_expired token now = false.
Proof.
  unfold token_malformed, token_bad_signature, token_expired, verifyToken, jwt_verify.
  destruct (split_on "." token) as [|h [|p [|sig [|x l]]]];
    try destruct (jwt_decode p) as [claims|];
    try destruct (String.eqb sig (hmac JWT_SECRET (h +:+ "." +:+ p)));
    try destruct (jc_exp claims <=? now)%N; simpl;
    (split;
     [ intros [? ?]; first [discriminate | repeat split; reflexivity]
     | intros (? & ? & ?); first [discriminate | eauto] ]).
Qed.
End TokenProperties.

(** ** The concrete platform satisfies the laws *)

Lemma unhex_hex_char (a : ascii) (r : string) :
  unhex (hex_char a +:+ r) =
  match unhex r with Some t => Some (String a t) | None => None end.
Proof. destruct a as [[] [] [] [] [] [] [] []]; reflexivity. Qed.

Lemma unhex_hex (s : string) : unhex (hex s) = Some s.
Proof.
  induction s as [|a s IH]; [reflexivity|].
  simpl hex. rewrite unhex_hex_char, IH. reflexivity.
Qed.

Lemma hex_char_no_dot (a : ascii) : has_char "." (hex_char a) = false.
Proof. destruct a as [[] [] [] [] [] [] [] []]; reflexivity. Qed.

Lemma hex_char_no_comma (a : ascii) : has_char "," (hex_char a) = false.
Proof. destruct a as [[] [] [] [] [] [] [] []]; reflexivity. Qed.

Lemma hex_no_dot (s : string) : has_char "." (hex s) = false.
Proof.
  induction s as [|a s IH]; [reflexivity|].
  simpl hex. rewrite has_char_app, hex_char_no_dot, IH. reflexivity.
Qed.

Lemma hex_no_comma (s : string) : has_char "," (hex s) = false.
Proof.
  induction s as [|a s IH]; [reflexivity|].
  simpl hex. rewrite has_char_app, hex_char_no_comma, IH. reflexivity.
Qed.

Lemma bits_pos_bits (p : positive) : bits_pos (pos_bits p) = Some p.
Proof. induction p as [p IH|p IH|]; simpl; rewrite ?IH; reflexivity. Qed.

Lemma bits_N_bits (n : N) : bits_N (N_bits n) = Some n.
Proof. destruct n as [|p]; [reflexivity|]. simpl. by rewrite bits_pos_bits. Qed.

Lemma pos_bits_clean (c : ascii) (p : positive) :
  Ascii.eqb "0" c = false -> Ascii.eqb "1" c = false -> has_char c (pos_bits p) = false.
Proof.
  intros H0 H1.
  induction p as [p IH|p IH|]; cbn [pos_bits has_char]; rewrite ?H0, ?H1, ?IH; reflexivity.
Qed.

Lemma N_bits_no_dot (n : N) : has_char "." (N_bits n) = false.
Proof. destruct n as [|p]; [reflexivity|]. simpl. by rewrite pos_bits_clean. Qed.

Lemma N_bits_no_comma (n : N) : has_char "," (N_bits n) = false.
Proof. destruct n as [|p]; [reflexivity|]. simpl. by rewrite pos_bits_clean. Qed.

Lemma demo_decode_encode (c : JwtClaims) : demo_decode (demo_encode c) = Some c.
Proof.
  destruct c as [[u t r e] i x]. unfold demo_decode, demo_encode. simpl.
  rewrite !split_on_sep by apply hex_no_comma.
  rewrite split_on_sep by apply N_bits_no_comma.
  rewrite split_on_no_sep by apply N_bits_no_comma.
  rewrite !unhex_hex, !bits_N_bits. reflexivity.
Qed.

Lemma demo_encode_no_dot (c : JwtClaims) : has_char "." (demo_encode c) = false.
Proof.
  unfold demo_encode.
  rewrite !has_char_app, !hex_no_dot, !N_bits_no_dot. reflexivity.
Qed.

#[global] Instance demo_laws : PlatformLaws demo_platform.
Proof.
  split.
  - exact demo_decode_encode.
  - exact demo_encode_no_dot.
  - intros k m. apply hex_no_dot.
Qed.

Lemma verify_generate_roundtrip_witness :
  (1000 < 500 + @JWT_EXPIRES_IN demo_platform)%N /\
  @verifyToken demo_platform (@generateToken demo_platform demo_payload 500) 1000 =
  inr (issued_claims demo_payload 86400 500).
Proof.
  split; [reflexivity|].
  apply (@verify_generate_roundtrip demo_platform demo_laws demo_payload 500 1000).
  reflexivity.
Defined.

Example verify_generate_computes :
  @verifyToken demo_platform (@generateToken demo_platform demo_payload 500) 1000 =
  inr {| jc_payload := demo_payload; jc_iat := 500; jc_exp := 86900 |}.
Proof. vm_compute. reflexivity. Qed.

Example verify_after_expiry :
  @verifyToken demo_platform (@generateToken demo_platform demo_payload 500) 86900 =
  inl generic_error.
Proof. vm_compute. reflexivity. Qed.

Example verify_tampered_signature :
  @verifyToken demo_platform (@generateToken demo_platform demo_payload 500 +:+ "aa") 1000 =
  inl generic_error.
Proof. vm_compute. reflexivity. Qed.

Example verify_other_secret :
  @verifyToken demo_platform
    (@jwt_sign demo_platform demo_payload "another-secret" 86400 500) 1000 =
  inl generic_error.
Proof. vm_compute. reflexivity. Qed.

Lemma verifyToken_fails_closed_witness :
  @verifyToken demo_platform "not-a-token" 1000 = inl generic_error.
Proof.
  apply (@verifyToken_fails_closed demo_platform "not-a-token" 1000).
  left. reflexivity.
Defined.

(** ** Calls to the store *)

Lemma store_call_cases {A} (ev : event) (op : World -> A * World) (w : World) :
  (exists e, next_failure w = Some e /\
             store_call ev op w = (inl e, after_call ev w)) \/
  (exists w0 a w1, op w0 = (a, w1) /\ store_call ev op w = (inr a, w1) /\
              w_users w0 = w_users w /\ w_roles w0 = w_roles w /\
              w_tables w0 = w_tables w /\ w_audit w0 = w_audit w /\
              w_trace w0 = w_trace w ++ [ev] /\ w_console w0 = w_console w /\
              w_clock w0 = w_clock w /\ w_next_id w0 = w_next_id w /\
              w_faults w0 = tail (w_faults w)).
Proof.
  unfold store_call. destruct (next_failure w) as [e|] eqn:Hn.
  - left. eauto.
  - right. exists (after_call ev w). destruct (op (after_call ev w)) as [a w1].
    exists a, w1. split_and!; reflexivity.
Qed.

Section AuthProperties.
Context {P : Platform}.

Lemma find_none_iff {A} (f : A -> bool) (l : list A) :
  List.find f l = None <-> forall x, In x l -> f x = false.
Proof.
  split; [apply find_none|].
  intros H. destruct (List.find f l) as [x|] eqn:Hx; [|reflexivity].
  apply find_some in Hx as [Hin Hfx]. rewrite (H x Hin) in Hfx. discriminate.
Qed.

Lemma user_matches_true (id tenant : string) (u : UserRow) :
  user_matches id tenant u = true <->
  user_id u = id /\ user_tenantId u = tenant /\ user_isActive u = true.
Proof.
  unfold user_matches. rewrite !andb_true_iff, !String.eqb_eq. tauto.
Qed.

(** C4: for a token whose claims validate, [getUserByToken] gives a
    user only if a stored user has the id and the tenant of the claims
    and is active, and that is the user it gives; when no stored user is
    like that it gives [null]; and it never throws. *)
Theorem getUserByToken_active_tenant_user (token : string) (w : World) (claims : JwtClaims) :
  verifyToken token (w_clock w) = inr claims ->
  (forall au, (getUserByToken token w).1 = inr (Some au) ->
     exists u, In u (w_users w) /\
               user_id u = userId (jc_payload claims) /\
               user_tenantId u = tenantId (jc_payload claims) /\
               user_isActive u = true /\
               au_id au = user_id u /\ au_tenantId au = user_tenantId u) /\
  ((forall u, In u (w_users w) ->
      user_id u <> userId (jc_payload claims) \/
      user_tenantId u <> tenantId (jc_payload claims) \/
      user_isActive u = false) ->
   (getUserByToken token w).1 = inr None) /\
  (exists o, (getUserByToken token w).1 = inr o).
Proof.
  intros Hv. unfold getUserByToken. run. rewrite Hv. unfold user_findFirst.
  destruct (store_call_cases
              (EvUserFindFirst (userId (jc_payload claims)) (tenantId (jc_payload claims)))
              (fun w0 =>
                 (match List.find (user_matches (userId (jc_payload claims))
                                                (tenantId (jc_payload claims))) (w_users w0) with
                  | Some u => Some (u, role_of (w_roles w0) u)
                  | None => None
                  end, w0)) w)
    as [(fs & Hf & Hrun)|(w0 & a & w1 & Hop & Hrun & Hu & _)]; rewrite Hrun; simpl;
    [|inversion Hop; subst; clear Hop].
  - split; [discriminate|]. split; [reflexivity|eauto].
  - rewrite Hu.
    destruct (List.find _ (w_users w)) as [u|] eqn:Hfind; simpl.
    + apply find_some in Hfind as [Hin Hm]. apply user_matches_true in Hm as (Hi & Ht & Ha).
      split; [|split].
      * intros au [= <-]. exists u. simpl. split_and!; auto.
      * intros Hnone. destruct (Hnone u Hin) as [H|[H|H]]; congruence.
      * eauto.
    + split; [discriminate|]. split; [reflexivity|eauto].
Qed.

(** C5: whatever the entry, the store and the serializer do,
    [createAuditLog] returns normally.  Either the row was appended, or
    the failure went to the console and the audit log is as before; the
    business tables are never touched. *)
Theorem createAuditLog_never_throws (e : AuditEntry) (w : World) :
  exists w', createAuditLog e w = (inr tt, w') /\
             w_tables w' = w_tables w /\ w_users w' = w_users w /\
             ((exists r, w_audit w' = w_audit w ++ [r] /\ w_console w' = w_console w) \/
              (exists msg, w_audit w' = w_audit w /\
                           w_console w' = w_console w ++ ["Failed to create audit log: " +:+ msg])).
Proof.
  unfold createAuditLog. run.
  destruct (stringify_or_null (ae_beforeData e)) as [err|before]; simpl.
  { eexists. split; [reflexivity|]. simpl. split_and!; eauto. }
  destruct (stringify_or_null (ae_afterData e)) as [err|after]; simpl.
  { eexists. split; [reflexivity|]. simpl. split_and!; eauto. }
  unfold auditLog_create, store_call.
  destruct (next_failure w); simpl.
  - eexists. split; [reflexivity|]. simpl. split_and!; eauto.
  - eexists. split; [reflexivity|]. simpl. split_and!; eauto.
Qed.

End AuthProperties.

(** ** Tenant scoping and pagination *)

Section ScopingProperties.
Context {P : Platform}.

Lemma next_fails_false (w : World) : next_fails w = false -> next_failure w = None.
Proof. unfold next_fails. by destruct (next_failure w). Qed.

Lemma store_up_S (n : nat) (ev : event) (w : World) :
  store_up (S n) w = negb (next_fails w) && store_up n (after_call ev w).
Proof.
  unfold store_up, next_fails, next_failure, after_call. simpl.
  destruct (w_faults w) as [|[e|] fs]; try reflexivity. by destruct n.
Qed.

Lemma matches_entry (where_ r : gmap string jsval) (k : string) (v : jsval) :
  matches where_ r = true -> where_ !! k = Some v -> field_ok k v r = true.
Proof.
  unfold matches. rewrite forallb_forall. intros Hall Hk.
  apply (Hall (k, v)). apply list_elem_of_In. by apply elem_of_map_to_list.
Qed.

Lemma field_ok_str (k s : string) (r : gmap string jsval) :
  field_ok k (JStr s) r = true -> r !! k = Some (JStr s).
Proof.
  simpl. destruct (r !! k) as [[]|]; simpl; try discriminate.
  by intros ->%String.eqb_eq.
Qed.

Lemma paginate_where_tenant (params : PaginationParams) (t : string) :
  paginate_where params t !! "tenantId" = Some (JStr t).
Proof.
  unfold paginate_where. rewrite lookup_insert_ne by discriminate.
  apply lookup_insert_eq.
Qed.

(** What [paginate] does, call by call. *)
Lemma paginate_eq (model : string) (params : PaginationParams) (t : string) (w : World) :
  let q := paginate_query params t in
  let w1 := after_call (EvFindMany model q) w in
  let w2 := after_call (EvCount model (q_where q)) w1 in
  let n := Z.of_nat (length (List.filter (matches (q_where q)) (table model w))) in
  paginate model params t w =
  (match next_failure w, next_failure w1 with
   | Some e, _ => inl e
   | None, Some e => inl e
   | None, None =>
       inr {| data := run_query q (table model w);
               meta := {| page := paginate_page params;
                          limit := paginate_limit params;
                          total := n;
                          totalPages := ceil_div n (paginate_limit params);
                          hasNext := paginate_page params <? ceil_div n (paginate_limit params);
                          hasPrev := 1 <? paginate_page params |} |}
   end,
   w2).
Proof.
  intros q w1 w2 n. unfold paginate. run.
  unfold promise_all2, findMany, count, store_call. fold q. fold w1.
  change (paginate_where params t) with (q_where q). fold w2.
  destruct (next_failure w), (next_failure w1); reflexivity.
Qed.

(** C1: the [where] that [paginate] sends to the store, and the one
    [withTenantFilter] builds, carry [tenantId] equal to the tenant
    argument whatever the caller's own [where] says, so every row they
    admit belongs to that tenant; these are the queries [paginate] issues. *)
Theorem tenant_predicate_is_server_derived
        (t : string) (params : PaginationParams) (q : gmap string jsval) :
  q_where (paginate_query params t) !! "tenantId" = Some (JStr t) /\
  (forall r, matches (q_where (paginate_query params t)) r = true ->
             r !! "tenantId" = Some (JStr t)) /\
  (forall model w,
     w_trace (paginate model params t w).2 =
     w_trace w ++ [EvFindMany model (paginate_query params t);
                   EvCount model (q_where (paginate_query params t))]) /\
  (exists out where_,
     withTenantFilter t (JObj q) = inr (JObj out) /\
     out !! "where" = Some (JObj where_) /\
     where_ !! "tenantId" = Some (JStr t) /\
     forall r, matches where_ r = true -> r !! "tenantId" = Some (JStr t)).
Proof.
  split_and!.
  - apply paginate_where_tenant.
  - intros r Hm. apply field_ok_str.
    exact (matches_entry _ _ _ _ Hm (paginate_where_tenant params t)).
  - intros model w. rewrite paginate_eq. simpl. by rewrite <- app_assoc.
  - eexists _, _. split; [reflexivity|]. split; [apply lookup_insert_eq|].
    split; [apply lookup_insert_eq|].
    intros r Hm. apply field_ok_str.
    refine (matches_entry _ _ _ _ Hm _). apply lookup_insert_eq.
Qed.


Lemma ceil_div_bounds (a b : Z) :
  0 < b -> (ceil_div a b - 1) * b < a <= ceil_div a b * b.
Proof.
  intros Hb. unfold ceil_div.
  pose proof (Z.div_mod (- a) b ltac:(lia)) as Hdm.
  pose proof (Z.mod_pos_bound (- a) b Hb) as Hm.
  nia.
Qed.


Lemma paginate_limit_value (params : PaginationParams) (l : Z) :
  p_limit params = Some l -> 0 <= l ->
  paginate_limit params = (if l =? 0 then 10 else Z.min l 100) /\
  1 <= paginate_limit params <= 100.
Proof.
  intros Hl Hpos. unfold paginate_limit, num_or. rewrite Hl.
  destruct (Z.eqb_spec l 0); lia.
Qed.





(** Beyond it the product is rounded: on page [2^53] with a limit of 10
    the code skips 90071992547409904 rows, not 90071992547409910. *)
Example js_skip_rounds :
  js_skip (2 ^ 53) 10 = 90071992547409904 /\ (2 ^ 53 - 1) * 10 = 90071992547409910.
Proof. split; vm_compute; reflexivity. Qed.


#[global] Instance desc_by_trans f : Transitive (desc_by f).
Proof. unfold desc_by. intros a b c. lia. Qed.

#[global] Instance desc_by_total f : Total (desc_by f).
Proof. unfold desc_by. intros a b. lia. Qed.

Lemma slice_sorted (R : relation (gmap string jsval)) (sk tk : Z)
      (rows : list (gmap string jsval)) :
  StronglySorted R rows -> StronglySorted R (slice sk tk rows).
Proof.
  intros Hs. unfold slice.
  apply (StronglySorted_app_1_l _ _ (drop (Z.to_nat tk) (drop (Z.to_nat sk) rows))).
  rewrite take_drop.
  apply (StronglySorted_app_1_r _ (take (Z.to_nat sk) rows)).
  by rewrite take_drop.
Qed.

Lemma order_rows_createdAt_desc (rows : list (gmap string jsval)) :
  order_rows (JObj {[ "createdAt" := JStr "desc" ]}) rows =
  merge_sort (desc_by "createdAt") rows.
Proof. unfold order_rows. rewrite map_to_list_singleton. reflexivity. Qed.

(** C7, amended: without an [orderBy] ([undefined], or any falsy
    value), [paginate] asks for [createdAt] descending, and the rows come
    back most recently created first. *)
Theorem paginate_default_order_is_createdAt
        (model t : string) (params : PaginationParams) (w : World) :
  truthy (p_orderBy params) = false -> store_up 2 w = true ->
  exists res w',
    paginate model params t w = (inr res, w') /\
    q_orderBy (paginate_query params t) = JObj {[ "createdAt" := JStr "desc" ]} /\
    StronglySorted (desc_by "createdAt") (data res).
Proof.
  intros Hob Hup.
  rewrite (store_up_S 1 (EvFindMany model (paginate_query params t))) in Hup.
  rewrite (store_up_S 0 (EvCount model (q_where (paginate_query params t)))) in Hup.
  apply andb_true_iff in Hup as [Hn1 Hup]. apply andb_true_iff in Hup as [Hn2 _].
  apply negb_true_iff in Hn1, Hn2. apply next_fails_false in Hn1, Hn2.
  eexists _, _. rewrite paginate_eq. cbv zeta. rewrite Hn1, Hn2. simpl orb. cbv iota.
  split; [reflexivity|].
  assert (Hq : q_orderBy (paginate_query params t) = JObj {[ "createdAt" := JStr "desc" ]}).
  { simpl. unfold js_or. rewrite Hob. reflexivity. }
  split; [exact Hq|].
  cbn [data]. unfold run_query. rewrite Hq, order_rows_createdAt_desc.
  apply slice_sorted, Sorted_StronglySorted; [apply _|].
  apply Sorted_merge_sort. apply _.
Qed.

End ScopingProperties.

(** ** Request handlers *)

Section HandlerProperties.
Context {P : Platform}.

Lemma getUserByToken_world (token : string) (w : World) :
  exists o w', getUserByToken token w = (inr o, w') /\
    w_tables w' = w_tables w /\ w_audit w' = w_audit w /\ w_users w' = w_users w /\
    w_console w' = w_console w /\
    exists evs, w_trace w' = w_trace w ++ evs /\ existsb is_data_access evs = false.
Proof.
  unfold getUserByToken. run.
  destruct (verifyToken token (w_clock w)) as [e|claims]; simpl.
  { eexists _, _. split; [reflexivity|]. split_and!; try reflexivity.
    exists []. by rewrite app_nil_r. }
  unfold user_findFirst, store_call.
  destruct (next_failure w); simpl.
  { eexists _, _. split; [reflexivity|]. split_and!; try reflexivity.
    eexists [_]. split; reflexivity. }
  destruct (List.find _ _) as [u|]; simpl;
    (eexists _, _; split; [reflexivity|]; split_and!; try reflexivity;
     eexists [_]; split; reflexivity).
Qed.

Lemma authenticate_world (req : Request) (w : World) :
  exists r w', authenticate req w = (r, w') /\
    w_tables w' = w_tables w /\ w_audit w' = w_audit w /\ w_users w' = w_users w /\
    w_console w' = w_console w /\
    (exists evs, w_trace w' = w_trace w ++ evs /\ existsb is_data_access evs = false) /\
    (forall e, r = inl e -> e = auth_required \/ e = invalid_token).
Proof.
  unfold authenticate.
  destruct (replace_first "Bearer " "" <$> req_headers req !! "authorization") as [token|].
  2:{ eexists _, _. split; [reflexivity|]. split_and!; try reflexivity.
      - exists []. by rewrite app_nil_r.
      - intros e [= <-]. by left. }
  destruct (String.eqb token "").
  { eexists _, _. split; [reflexivity|]. split_and!; try reflexivity.
    - exists []. by rewrite app_nil_r.
    - intros e [= <-]. by left. }
  run.
  destruct (getUserByToken_world token w) as (o & w' & Hrun & Ht & Ha & Hu & Hc & Hev).
  rewrite Hrun. destruct o as [u|].
  - eexists _, _. split; [reflexivity|]. split_and!; try done.
  - eexists _, _. split; [reflexivity|]. split_and!; try done.
    intros e [= <-]. by right.
Qed.


Lemma createAuditLog_total (e : AuditEntry) (w : World) :
  exists w', createAuditLog e w = (inr tt, w') /\
             w_tables w' = w_tables w /\ w_users w' = w_users w /\
             (w_audit w' = w_audit w \/ exists r, w_audit w' = w_audit w ++ [r]).
Proof.
  unfold createAuditLog. run.
  destruct (stringify_or_null (ae_beforeData e)) as [err|before]; simpl.
  { eexists. split; [reflexivity|]. simpl. auto. }
  destruct (stringify_or_null (ae_afterData e)) as [err|after]; simpl.
  { eexists. split; [reflexivity|]. simpl. auto. }
  unfold auditLog_create, store_call.
  destruct (next_failure w); simpl.
  - eexists. split; [reflexivity|]. simpl. auto.
  - eexists. split; [reflexivity|]. simpl. eauto.
Qed.






End HandlerProperties.

(** ** Instances on the concrete store *)

Example ex_paginate_page3 :
  match (@paginate demo_platform "account" (demo_params (Some 3) (Some 10)) "tenant-a"
                   (demo_world demo_accounts_25 [])).1 with
  | inr res => (length (data res), meta res) =
               (5%nat, {| page := 3; limit := 10; total := 25; totalPages := 3;
                          hasNext := false; hasPrev := true |})
  | inl _ => False
  end.
Proof. vm_compute. reflexivity. Qed.



Lemma paginate_default_order_not_updatedAt :
  exists res,
    (@paginate demo_platform "account" (demo_params None None) "tenant-a"
               (demo_world demo_accounts_2 [])).1 = inr res /\
    map (num_field "createdAt") (data res) = [2; 1] /\
    map (num_field "updatedAt") (data res) = [5; 10] /\
    ~ StronglySorted (desc_by "updatedAt") (data res).
Proof.
  eexists. rewrite paginate_eq. split; [reflexivity|]. cbn [data].
  split_and!; [vm_compute; reflexivity | vm_compute; reflexivity |].
  apply (@bool_decide_eq_false_1 _ (StronglySorted_dec _ _)). vm_compute. reflexivity.
Qed.

Lemma paginate_default_order_witness :
  exists res w',
    @paginate demo_platform "account" (demo_params None None) "tenant-a"
              (demo_world demo_accounts_2 []) = (inr res, w') /\
    q_orderBy (paginate_query (demo_params None None) "tenant-a") =
      JObj {[ "createdAt" := JStr "desc" ]} /\
    StronglySorted (desc_by "createdAt") (data res).
Proof.
  apply (@paginate_default_order_is_createdAt demo_platform "account" "tenant-a"
           (demo_params None None) (demo_world demo_accounts_2 [])); reflexivity.
Defined.

Example ex_getUserByToken_active :
  (@getUserByToken demo_platform (demo_token "u1") (demo_world [] [])).1 =
  inr (Some {| au_id := "u1"; au_email := "u1@demo.crm.com";
               au_firstName := None; au_lastName := None;
               au_tenantId := "tenant-a"; au_roleId := Some "r1";
               au_role := Some demo_role_rep |}).
Proof. vm_compute. reflexivity. Qed.

Example ex_getUserByToken_bad_token :
  (@getUserByToken demo_platform "garbage" (demo_world [] [])).1 = inr None.
Proof. vm_compute. reflexivity. Qed.

Lemma getUserByToken_witness :
  @verifyToken demo_platform (demo_token "u3") 1000 = inr (demo_claims "u3") /\
  (@getUserByToken demo_platform (demo_token "u3") (demo_world [] [])).1 = inr None.
Proof.
  assert (Hv : @verifyToken demo_platform (demo_token "u3")
                 (w_clock (demo_world [] [])) = inr (demo_claims "u3"))
    by (vm_compute; reflexivity).
  split; [exact Hv|].
  destruct (@getUserByToken_active_tenant_user demo_platform (demo_token "u3")
              (demo_world [] []) (demo_claims "u3") Hv) as (_ & Hnone & _).
  apply Hnone. intros u [<-|[<-|[<-|[]]]].
  - left. discriminate.
  - left. discriminate.
  - right. right. reflexivity.
Defined.


Example ex_GET_skips_permission_check :
  match @authenticate demo_platform (demo_request "u2" (inr demo_body))
                      (demo_world demo_accounts_2 []),
        @GET demo_platform (demo_request "u2" (inr demo_body))
             (demo_world demo_accounts_2 []) with
  | (inr user, _), (inr resp, _) =>
      canAccessResource user "accounts" "read" = inr false /\
      status resp = 200 /\
      match body resp with BodyPage res => length (data res) = 2%nat | _ => False end
  | _, _ => False
  end.
Proof. vm_compute. split_and!; reflexivity. Qed.

Example ex_GET_unauthenticated :
  (@GET demo_platform {| req_headers := ∅; req_searchParams := ∅; req_body := inr JNull |}
        (demo_world demo_accounts_2 [])).1 =
  inr {| status := 401; body := BodyError "Authentication required" |}.
Proof. vm_compute. reflexivity. Qed.

(** The audit store is down (third call): the account is created all the same. *)
Example ex_POST_survives_audit_outage :
  match @POST demo_platform (demo_request "u1" (inr demo_body))
              (demo_world [] [None; None; Some prisma_error]) with
  | (inr resp, w') =>
      status resp = 201 /\
      length (table "account" w') = 1%nat /\
      w_audit w' = [] /\
      w_console w' = ["Failed to create audit log: Can't reach database server"]
  | _ => False
  end.
Proof. vm_compute. split_and!; reflexivity. Qed.

Example ex_POST_audited :
  match @POST demo_platform (demo_request "u1" (inr demo_body)) (demo_world [] []) with
  | (inr resp, w') =>
      status resp = 201 /\
      map (fun r => (al_action r, al_tenantId r, al_userId r)) (w_audit w') =
      [("CREATE", "tenant-a", Some "u1")]
  | _ => False
  end.
Proof. vm_compute. split_and!; reflexivity. Qed.

(** A caller of tenant-a who asks for tenant-b in the [where] still gets
    tenant-a: all 25 rows of tenant-a, none of tenant-b. *)
Example ex_paginate_ignores_client_tenant :
  match (@paginate demo_platform "account"
           {| p_page := Some 1; p_limit := Some 100;
              p_where := JObj {[ "tenantId" := JStr "tenant-b" ]};
              p_include := JUndefined; p_orderBy := JUndefined |}
           "tenant-a" (demo_world demo_accounts_25 [])).1 with
  | inr res =>
      total (meta res) = 25 /\
      forallb (fun r => scalar_eqb (default JNull (r !! "tenantId")) (JStr "tenant-a"))
              (data res) = true
  | inl _ => False
  end.
Proof. vm_compute. split; reflexivity. Qed.

Example ex_withTenantFilter_overrides :
  withTenantFilter "tenant-a"
    (JObj {[ "where" := JObj {[ "tenantId" := JStr "tenant-b" ]} ]}) =
  inr (JObj {[ "where" := JObj {[ "tenantId" := JStr "tenant-a" ]} ]}).
Proof.
  unfold withTenantFilter. simpl. rewrite lookup_singleton_eq. simpl.
  by rewrite !insert_singleton_eq.
Qed.

(** * Further properties *)

(** ** Password policy *)

Lemma length_app_str (a b : string) :
  String.length (a +:+ b) = (String.length a + String.length b)%nat.
Proof.
  induction a as [|c a IH]; [reflexivity|].
  rewrite app_cons. simpl. by rewrite IH.
Qed.

Lemma test_class_app (class : ascii -> bool) (a b : string) :
  test_class class (a +:+ b) = test_class class a || test_class class b.
Proof.
  unfold test_class. induction a as [|c a IH]; [reflexivity|].
  rewrite app_cons. simpl. rewrite IH. apply orb_assoc.
Qed.

Lemma push_if_nil (cond : bool) (msg : string) : push_if cond msg = [] <-> cond = false.
Proof. destruct cond; simpl; split; congruence. Qed.

Lemma validatePassword_errors_nil (password : string) (policy : PasswordPolicy) :
  errors (validatePassword password policy) = [] <->
  minLength policy <= Z.of_nat (String.length password) /\
  (requireUppercase policy = true -> test_class is_upper password = true) /\
  (requireLowercase policy = true -> test_class is_lower password = true) /\
  (requireNumbers policy = true -> test_class is_digit password = true) /\
  (requireSpecialChars policy = true -> test_class is_special password = true).
Proof.
  unfold validatePassword. cbn [errors].
  rewrite !app_nil, !push_if_nil, Z.ltb_ge.
  assert (Himp : forall req t : bool, req && negb t = false <-> (req = true -> t = true)).
  { intros [] []; simpl; split; auto; try discriminate. intros H. by specialize (H eq_refl). }
  rewrite !Himp. tauto.
Qed.

Lemma validatePassword_ok (password : string) (policy : PasswordPolicy) :
  isValid (validatePassword password policy) = true <->
  minLength policy <= Z.of_nat (String.length password) /\
  (requireUppercase policy = true -> test_class is_upper password = true) /\
  (requireLowercase policy = true -> test_class is_lower password = true) /\
  (requireNumbers policy = true -> test_class is_digit password = true) /\
  (requireSpecialChars policy = true -> test_class is_special password = true).
Proof.
  rewrite <- validatePassword_errors_nil.
  change (isValid (validatePassword password policy))
    with (length (errors (validatePassword password policy)) =? 0)%nat.
  rewrite Nat.eqb_eq. split.
  - by intros ?%nil_length_inv.
  - by intros ->.
Qed.

(** X1 ([validatePassword]): a password is valid exactly when it is at
    least [minLength] characters long and has a character of every class
    the policy requires (upper case, lower case, digit, special); the
    list of errors is empty in exactly that case, and it never holds more
    than five messages. *)
Theorem validatePassword_valid_iff (password : string) (policy : PasswordPolicy) :
  let satisfied :=
    minLength policy <= Z.of_nat (String.length password) /\
    (requireUppercase policy = true -> test_class is_upper password = true) /\
    (requireLowercase policy = true -> test_class is_lower password = true) /\
    (requireNumbers policy = true -> test_class is_digit password = true) /\
    (requireSpecialChars policy = true -> test_class is_special password = true) in
  (isValid (validatePassword password policy) = true <-> satisfied) /\
  (errors (validatePassword password policy) = [] <-> satisfied) /\
  (length (errors (validatePassword password policy)) <= 5)%nat.
Proof.
  split; [apply validatePassword_ok|]. split; [apply validatePassword_errors_nil|].
  unfold validatePassword, push_if. cbn [errors]. rewrite !length_app.
  repeat match goal with |- context [if ?c then _ else _] => destruct c end; simpl; lia.
Qed.

(** X2 ([validatePassword]): a valid password stays valid when text is
    added before and after it: the policy has no upper bound on the
    length and forbids no character. *)
Theorem validatePassword_extension (password before after : string) (policy : PasswordPolicy) :
  isValid (validatePassword password policy) = true ->
  isValid (validatePassword (before +:+ password +:+ after) policy) = true.
Proof.
  rewrite !validatePassword_ok, !length_app_str, !test_class_app.
  intros (Hlen & Hu & Hl & Hd & Hs).
  split; [lia|].
  split_and!; intros Hreq;
    [rewrite (Hu Hreq) | rewrite (Hl Hreq) | rewrite (Hd Hreq) | rewrite (Hs Hreq)];
    by rewrite orb_true_r.
Qed.

Lemma classes_disjoint (c : ascii) :
  b2z (is_upper c) + b2z (is_lower c) + b2z (is_digit c) + b2z (is_special c) <= 1.
Proof. destruct c as [[] [] [] [] [] [] [] []]; vm_compute; discriminate. Qed.

Lemma count_class_bound (s : string) :
  count_class is_upper s + count_class is_lower s +
  count_class is_digit s + count_class is_special s <= Z.of_nat (String.length s).
Proof.
  induction s as [|c s IH]; [reflexivity|].
  cbn [count_class String.length]. rewrite Nat2Z.inj_succ.
  pose proof (classes_disjoint c). lia.
Qed.

Lemma test_class_count (class : ascii -> bool) (s : string) :
  b2z (test_class class s) <= count_class class s.
Proof.
  unfold test_class. induction s as [|c s IH]; [reflexivity|].
  cbn [list_ascii_of_string existsb count_class].
  destruct (class c), (existsb class (list_ascii_of_string s)); simpl in *; lia.
Qed.

Lemma b2z_imp (a b : bool) : (a = true -> b = true) -> b2z a <= b2z b.
Proof. destruct a, b; simpl; intros H; try lia; specialize (H eq_refl); discriminate. Qed.

(** X3 ([validatePassword]): a valid password has at least as many
    characters as the policy requires classes, since the four classes
    are disjoint; with the default policy no password of fewer than four
    characters could pass even if [minLength] were lowered. *)
Theorem validatePassword_needs_one_char_per_class (password : string) (policy : PasswordPolicy) :
  isValid (validatePassword password policy) = true ->
  b2z (requireUppercase policy) + b2z (requireLowercase policy) +
  b2z (requireNumbers policy) + b2z (requireSpecialChars policy)
  <= Z.of_nat (String.length password).
Proof.
  rewrite validatePassword_ok. intros (_ & Hu & Hl & Hd & Hs).
  pose proof (count_class_bound password).
  pose proof (test_class_count is_upper password).
  pose proof (test_class_count is_lower password).
  pose proof (test_class_count is_digit password).
  pose proof (test_class_count is_special password).
  pose proof (b2z_imp _ _ Hu). pose proof (b2z_imp _ _ Hl).
  pose proof (b2z_imp _ _ Hd). pose proof (b2z_imp _ _ Hs). lia.
Qed.

(** ** Permission model, beyond well-formed sets *)

Lemma perm_le_lookup (p p' : gmap string (list string)) (k : string) (acts : list string) :
  perm_le p p' = true -> p !! k = Some acts ->
  exists acts', p' !! k = Some acts' /\ forall a, In a acts -> In a acts'.
Proof.
  unfold perm_le. rewrite forallb_forall. intros Hall Hk.
  specialize (Hall (k, acts)). simpl in Hall.
  destruct (p' !! k) as [acts'|].
  - exists acts'. split; [reflexivity|]. intros a Ha.
    assert (Hf : forallb (fun a => existsb (String.eqb a) acts') acts = true).
    { apply Hall, list_elem_of_In. by apply elem_of_map_to_list. }
    rewrite forallb_forall in Hf. specialize (Hf a Ha).
    apply existsb_exists in Hf as (x & Hx & ->%String.eqb_eq). exact Hx.
  - exfalso. assert (false = true); [|discriminate].
    apply Hall, list_elem_of_In. by apply elem_of_map_to_list.
Qed.

Lemma listed_mono (s : string) (o o' : option (list string)) :
  (forall acts, o = Some acts -> exists acts', o' = Some acts' /\ forall a, In a acts -> In a acts') ->
  listed s o = true -> listed s o' = true.
Proof.
  rewrite !listed_In. intros Hle (acts & Ho & Hin).
  destruct (Hle acts Ho) as (acts' & Ho' & Hsub). eauto.
Qed.

(** X4 ([hasPermission]): permission is monotone in the permission
    set: if every action [p] lists for a resource is listed by [p'] for
    that resource, whatever [p] allows [p'] allows. In the default roles
    a Sales Manager may do whatever a Sales Rep may. *)
Theorem hasPermission_monotone (p p' : gmap string (list string)) (r a : string) :
  perm_le p p' = true ->
  hasPermission (perm_obj p) r a = inr true ->
  hasPermission (perm_obj p') r a = inr true.
Proof.
  intros Hle. rewrite !hasPermission_perm_obj.
  destruct (listed "*" (p !! "*")) eqn:Hstar.
  - intros _.
    by rewrite (listed_mono _ _ (p' !! "*") (fun acts => perm_le_lookup p p' "*" acts Hle) Hstar).
  - destruct (p !! r) as [acts|] eqn:Hr; [|by destruct (inherited r)].
    intros [= H]. destruct (listed "*" (p' !! "*")); [reflexivity|].
    destruct (perm_le_lookup p p' r acts Hle Hr) as (acts' & Hr' & Hsub).
    rewrite Hr'. f_equal.
    assert (Hmono : forall s, listed s (Some acts) = true -> listed s (Some acts') = true).
    { intros s. apply listed_mono. intros x [= <-]. eauto. }
    apply orb_true_iff in H as [H|H]; rewrite (Hmono _ H); [reflexivity|].
    by rewrite orb_true_r.
Qed.

(** X5 ([hasPermission]): a wildcard resource entry only counts when
    its action list holds the wildcard action: with ['*': acts] where
    [acts] lacks ['*'], a resource with no entry of its own, and not
    named like a member of [Object.prototype], is denied for every
    action, also for the actions [acts] lists. *)
Theorem hasPermission_star_entry_needs_star_action
        (p : gmap string (list string)) (r a : string) (acts : list string) :
  p !! "*" = Some acts -> ~ In "*" acts -> p !! r = None -> inherited r = false ->
  hasPermission (perm_obj p) r a = inr false.
Proof.
  intros Hstar Hno Hr Hown. rewrite hasPermission_perm_obj, Hstar, Hr, Hown. simpl.
  destruct (existsb (is_str "*") (map JStr acts)) eqn:He; [|reflexivity].
  apply includes_In in He. contradiction.
Qed.

Lemma js_includes_not_a_list (v : jsval) (s : string) :
  not_a_list v = true -> js_includes v s = inl includes_type_error.
Proof. destruct v; simpl; try discriminate; reflexivity. Qed.

Lemma not_a_list_truthy (v : jsval) : not_a_list v = true -> truthy v = true.
Proof. destruct v; simpl; try discriminate; auto. Qed.

(** X6 ([hasPermission]): on a permission object whose consulted
    entry is truthy and neither a list nor a string (a number, [true], an
    object), the function does not answer false: the call of [includes]
    raises a [TypeError]. *)
Theorem hasPermission_malformed_entry_throws (m : gmap string jsval) (r a : string) (v : jsval) :
  not_a_list v = true ->
  (m !! "*" = Some v \/
   (truthy (default JUndefined (m !! "*")) = false /\ m !! r = Some v)) ->
  hasPermission (JObj m) r a = inl includes_type_error.
Proof.
  intros Hv [Hstar|[Hstar Hr]]; unfold hasPermission; cbn [truthy negb];
    rewrite (js_lookup_own m "*" eq_refl).
  - rewrite Hstar. simpl. rewrite (not_a_list_truthy v Hv), (js_includes_not_a_list v _ Hv).
    reflexivity.
  - rewrite Hstar. unfold js_lookup. rewrite Hr. simpl.
    rewrite (not_a_list_truthy v Hv), (js_includes_not_a_list v _ Hv). reflexivity.
Qed.

Lemma substring_whole (a y : string) : String.substring 0 (String.length a) (a +:+ y) = a.
Proof.
  induction a as [|c a IH].
  - simpl. by destruct y.
  - rewrite app_cons. simpl. by rewrite IH.
Qed.

Lemma substring_skip (x s : string) (n : nat) :
  String.substring (String.length x) n (x +:+ s) = String.substring 0 n s.
Proof.
  induction x as [|c x IH]; [reflexivity|].
  rewrite app_cons. simpl. exact IH.
Qed.

Lemma is_substring_app (x a y : string) : is_substring a (x +:+ a +:+ y) = true.
Proof.
  unfold is_substring.
  destruct (String.index 0 a (x +:+ a +:+ y)) as [n|] eqn:Hi; [reflexivity|].
  destruct a as [|c a].
  - apply String.index_correct4 in Hi. lia.
  - exfalso.
    apply (String.index_correct3 0 (String.length x) _ _ Hi); [discriminate|lia|].
    rewrite substring_skip. apply substring_whole.
Qed.

(** X7 ([hasPermission]): when the entry of the resource is a string
    instead of a list, [includes] is the substring test: every action
    that occurs inside that string is allowed. *)
Theorem hasPermission_string_entry_matches_substrings
        (m : gmap string jsval) (r a x y : string) :
  truthy (default JUndefined (m !! "*")) = false ->
  m !! r = Some (JStr (x +:+ a +:+ y)) -> x +:+ a +:+ y <> EmptyString ->
  hasPermission (JObj m) r a = inr true.
Proof.
  intros Hstar Hr Hne. unfold hasPermission. cbn [truthy negb].
  rewrite (js_lookup_own m "*" eq_refl), Hstar. unfold js_lookup. rewrite Hr. simpl.
  destruct (String.eqb_spec (x +:+ a +:+ y) ""); [contradiction|]. simpl.
  by rewrite is_substring_app.
Qed.

(** ** Tenant filter, pages and audit rows *)

Section MoreScoping.
Context {P : Platform}.

(** X8 ([withTenantFilter]): scoping a query leaves every key other
    than [where] as it was and every filter other than [tenantId] as the
    caller gave it, and scoping again for another tenant gives the same
    query as scoping the original one for that tenant: the last tenant
    wins. *)
Theorem withTenantFilter_last_wins (t1 t2 : string) (q : gmap string jsval) :
  exists out1,
    withTenantFilter t1 (JObj q) = inr (JObj out1) /\
    withTenantFilter t2 (JObj out1) = withTenantFilter t2 (JObj q) /\
    (forall k, k <> "where" -> out1 !! k = q !! k) /\
    (forall k, k <> "tenantId" ->
       js_get (js_get (JObj out1) "where") k =
       default JUndefined (spread (js_get (JObj q) "where") !! k)).
Proof.
  eexists. split; [reflexivity|]. split_and!.
  - unfold withTenantFilter. cbn [spread js_get].
    rewrite lookup_insert_eq. cbn [default spread].
    rewrite insert_insert_eq. cbn [id spread]. by rewrite insert_insert_eq.
  - intros k Hk. by rewrite lookup_insert_ne.
  - intros k Hk. cbn [js_get]. rewrite lookup_insert_eq. cbn [default js_get id].
    by rewrite lookup_insert_ne.
Qed.

Lemma field_ok_bool (k : string) (b : bool) (r : gmap string jsval) :
  field_ok k (JBool b) r = true -> r !! k = Some (JBool b).
Proof.
  simpl. destruct (r !! k) as [[]|]; simpl; try discriminate.
  by intros ->%Bool.eqb_prop.
Qed.

Lemma order_rows_perm `{!EngineLaws P} (orderBy : jsval) (rows : list (gmap string jsval)) :
  order_rows orderBy rows ≡ₚ rows.
Proof.
  unfold order_rows.
  destruct orderBy as [| | | | | |m]; try apply engine_order_perm; [reflexivity|].
  destruct (map_to_list m) as [|[f v] l]; [apply engine_order_perm|].
  destruct v, l; try apply engine_order_perm.
  destruct (String.eqb s "desc"); [apply merge_sort_Permutation|].
  destruct (String.eqb s "asc"); [apply merge_sort_Permutation|apply engine_order_perm].
Qed.

Lemma slice_In (sk tk : Z) (rows : list (gmap string jsval)) (r : gmap string jsval) :
  In r (slice sk tk rows) -> In r rows.
Proof.
  unfold slice. intros H%list_elem_of_In. apply list_elem_of_In.
  by eapply subseteq_drop, subseteq_take.
Qed.

Lemma run_query_In `{!EngineLaws P} (q : query) (rows : list (gmap string jsval))
      (r : gmap string jsval) :
  In r (run_query q rows) -> In r rows /\ matches (q_where q) r = true.
Proof.
  unfold run_query. intros H%slice_In. apply list_elem_of_In in H.
  rewrite order_rows_perm in H. apply list_elem_of_In, filter_In in H. exact H.
Qed.

Lemma store_up_2 (ev1 ev2 : event) (w : World) :
  store_up 2 w = true ->
  next_failure w = None /\ next_failure (after_call ev1 w) = None.
Proof.
  intros Hup. rewrite (store_up_S 1 ev1), (store_up_S 0 ev2) in Hup.
  apply andb_true_iff in Hup as [Hn1 Hup]. apply andb_true_iff in Hup as [Hn2 _].
  apply negb_true_iff in Hn1, Hn2. by split; apply next_fails_false.
Qed.

(** X9 ([paginate]): when the store answers, every row of the page
    is a row of the table that belongs to the tenant argument and is
    active, whatever filter, ordering and page the caller asks for, and
    the tables are left as they were. *)
Theorem paginate_returns_tenant_active_rows `{!EngineLaws P}
        (model t : string) (params : PaginationParams) (w : World) :
  store_up 2 w = true ->
  exists res w',
    paginate model params t w = (inr res, w') /\
    w_tables w' = w_tables w /\
    forall r, In r (data res) ->
      In r (table model w) /\
      r !! "tenantId" = Some (JStr t) /\
      r !! "isActive" = Some (JBool true).
Proof.
  intros Hup.
  destruct (store_up_2 (EvFindMany model (paginate_query params t))
                       (EvCount model (q_where (paginate_query params t))) w Hup)
    as [Hn1 Hn2].
  eexists _, _. rewrite paginate_eq. cbv zeta. rewrite Hn1, Hn2.
  split; [reflexivity|]. split; [reflexivity|].
  cbn [data]. intros r [Hin Hm]%run_query_In. split; [exact Hin|]. split.
  - apply field_ok_str. exact (matches_entry _ _ _ _ Hm (paginate_where_tenant params t)).
  - apply field_ok_bool. refine (matches_entry _ _ _ _ Hm _).
    apply lookup_insert_eq.
Qed.

End MoreScoping.

Section MorePaging.
Context {P : Platform}.

Lemma paginate_page_value (params : PaginationParams) (p : Z) :
  p_page params = Some p -> 1 <= p -> paginate_page params = p.
Proof.
  intros Hp Hp1. unfold paginate_page, num_or. rewrite Hp.
  destruct (Z.eqb_spec p 0); lia.
Qed.

Lemma slice_length_exact (sk tk : Z) (rows : list (gmap string jsval)) :
  0 <= sk -> 0 <= tk ->
  Z.of_nat (length (slice sk tk rows)) =
  Z.max 0 (Z.min tk (Z.of_nat (length rows) - sk)).
Proof.
  intros Hs Ht. unfold slice. rewrite length_take, length_drop. lia.
Qed.

(** X10 ([paginate]): for a page [p >= 1] and a limit [l >= 0] the
    page holds exactly [max 0 (min limit (total - (p-1)*limit))] rows;
    [hasNext] holds exactly when rows remain after the page, and a page
    past the last one is empty. *)
Theorem paginate_page_size `{!EngineLaws P}
        (model t : string) (params : PaginationParams) (p l : Z) (w : World) :
  p_page params = Some p -> p_limit params = Some l ->
  1 <= p -> 0 <= l -> store_up 2 w = true ->
  exists res w',
    paginate model params t w = (inr res, w') /\
    Z.of_nat (length (data res)) =
      Z.max 0 (Z.min (limit (meta res))
                     (total (meta res) - (p - 1) * limit (meta res))) /\
    (hasNext (meta res) = true <-> p * limit (meta res) < total (meta res)) /\
    (totalPages (meta res) < p -> data res = []).
Proof.
  intros Hp Hl Hp1 Hl0 Hup.
  destruct (paginate_limit_value params l Hl Hl0) as [_ Hrange].
  pose proof (paginate_page_value params p Hp Hp1) as Hpage.
  destruct (store_up_2 (EvFindMany model (paginate_query params t))
                       (EvCount model (q_where (paginate_query params t))) w Hup)
    as [Hn1 Hn2].
  eexists _, _. rewrite paginate_eq. cbv zeta. rewrite Hn1, Hn2.
  split; [reflexivity|]. cbn [data meta limit total hasNext totalPages].
  set (lim := paginate_limit params) in *.
  set (n := Z.of_nat (length (List.filter (matches (q_where (paginate_query params t)))
                                          (table model w)))).
  assert (Hlen : Z.of_nat (length (run_query (paginate_query params t) (table model w))) =
                 Z.max 0 (Z.min lim (n - (p - 1) * lim))).
  { unfold run_query. rewrite slice_length_exact.
    - rewrite order_rows_perm. cbn [paginate_query q_skip q_take]. fold lim.
      by rewrite Hpage.
    - cbn [paginate_query q_skip]. fold lim. rewrite Hpage. nia.
    - cbn [paginate_query q_take]. fold lim. lia. }
  pose proof (ceil_div_bounds n lim ltac:(lia)) as Hceil.
  rewrite Hpage. split_and!.
  - exact Hlen.
  - rewrite Z.ltb_lt. nia.
  - intros Hpast. apply nil_length_inv. nia.
Qed.

Lemma take_plus_app {A} (a b : nat) (l : list A) :
  take (a + b) l = take a l ++ take b (drop a l).
Proof.
  revert l. induction a as [|a IH]; intros [|x l]; simpl; try reflexivity.
  - by destruct b.
  - by rewrite IH.
Qed.

Lemma windows_concat {A} (lim k : nat) (l : list A) :
  concat (map (fun i => take lim (drop (i * lim) l)) (seq 0 k)) = take (k * lim) l.
Proof.
  induction k as [|k IH]; [reflexivity|].
  rewrite seq_S, map_app, concat_app, IH. simpl concat. rewrite app_nil_r.
  replace (S k * lim)%nat with (k * lim + lim)%nat by lia.
  by rewrite take_plus_app.
Qed.

(** X11 ([paginate]): the pages [1 .. totalPages] of one request,
    one after the other, are exactly the matching rows in the requested
    order: no row is skipped and none is listed twice. *)
Theorem paginate_pages_partition
        (t : string) (params : PaginationParams) (l : Z) (rows : list (gmap string jsval)) :
  p_limit params = Some l -> 0 <= l ->
  let q := paginate_query params t in
  let matching := order_rows (q_orderBy q) (List.filter (matches (q_where q)) rows) in
  let pages := Z.to_nat (ceil_div (Z.of_nat (length matching)) (paginate_limit params)) in
  concat (map (fun i => run_query (paginate_query (with_page params (Z.of_nat i)) t) rows)
              (seq 1 pages)) = matching.
Proof.
  intros Hl Hl0 q matching pages.
  destruct (paginate_limit_value params l Hl Hl0) as [_ Hrange].
  set (lim := paginate_limit params) in *.
  assert (Hpage : forall i : nat,
            run_query (paginate_query (with_page params (Z.of_nat (S i))) t) rows =
            take (Z.to_nat lim) (drop (i * Z.to_nat lim) matching)).
  { intros i. unfold run_query, slice, paginate_query. cbn [q_skip q_take q_where q_orderBy].
    unfold paginate_page, num_or. cbn [with_page p_page].
    destruct (Z.eqb_spec (Z.of_nat (S i)) 0) as [Hz|_]; [lia|].
    change (paginate_limit (with_page params (Z.of_nat (S i)))) with lim.
    replace (Z.to_nat ((Z.of_nat (S i) - 1) * lim)) with (i * Z.to_nat lim)%nat by nia.
    reflexivity. }
  rewrite <- seq_shift, map_map.
  rewrite (map_ext _ _ Hpage), windows_concat.
  apply take_ge.
  pose proof (ceil_div_bounds (Z.of_nat (length matching)) lim ltac:(lia)) as Hceil.
  unfold pages. fold lim. nia.
Qed.

End MorePaging.

(** ** Audit rows *)

Section MoreAudit.
Context {P : Platform}.

Lemma stringify_or_null_falsy (v : jsval) : truthy v = false -> stringify_or_null v = inr None.
Proof. unfold stringify_or_null. by intros ->. Qed.

(** X12 ([createAuditLog]): when serialization and the store both
    succeed, exactly one row is appended to the audit log; it carries the
    fields of the entry, a falsy snapshot is stored as null, nothing is
    written to the console and no table changes. *)
Theorem createAuditLog_appends_entry (e : AuditEntry) (w : World) (before after : option string) :
  stringify_or_null (ae_beforeData e) = inr before ->
  stringify_or_null (ae_afterData e) = inr after ->
  next_failure w = None ->
  (truthy (ae_beforeData e) = false -> before = None) /\
  (truthy (ae_afterData e) = false -> after = None) /\
  exists w',
    createAuditLog e w = (inr tt, w') /\
    w_audit w' = w_audit w ++ [audit_row e before after] /\
    w_trace w' = w_trace w ++ [EvAuditCreate (audit_row e before after)] /\
    w_console w' = w_console w /\ w_tables w' = w_tables w.
Proof.
  intros Hb Ha Hn. split_and!.
  - intros Hf. rewrite (stringify_or_null_falsy _ Hf) in Hb. congruence.
  - intros Hf. rewrite (stringify_or_null_falsy _ Hf) in Ha. congruence.
  - unfold createAuditLog. run. rewrite Hb, Ha.
    unfold auditLog_create, store_call. rewrite Hn. simpl.
    eexists. split; [reflexivity|]. by split_and!.
Qed.

(** X13 ([createAuditLog]): when a snapshot cannot be serialized the
    store is never called: the only effect is one console line with the
    error, and the caller gets a normal return. *)
Theorem createAuditLog_serializer_failure_skips_store (e : AuditEntry) (w : World) (err : exn) :
  stringify_or_null (ae_beforeData e) = inl err \/
  ((exists before, stringify_or_null (ae_beforeData e) = inr before) /\
   stringify_or_null (ae_afterData e) = inl err) ->
  createAuditLog e w =
  (inr tt, add_console ("Failed to create audit log: " +:+ exn_message err) w).
Proof.
  unfold createAuditLog. run.
  intros [Hb|[Hb Ha]].
  - by rewrite Hb.
  - destruct Hb as [before ->]. by rewrite Ha.
Qed.

End MoreAudit.

(** ** Soft delete *)

Section MoreStore.
Context {P : Platform}.

Lemma matches_iff (where_ r : gmap string jsval) :
  matches where_ r = true <-> forall k v, where_ !! k = Some v -> field_ok k v r = true.
Proof.
  unfold matches. rewrite forallb_forall. split.
  - intros Hall k v Hk. apply (Hall (k, v)), list_elem_of_In. by apply elem_of_map_to_list.
  - intros Hall [k v] Hin%list_elem_of_In%elem_of_map_to_list. by apply Hall.
Qed.

Lemma matches_id_tenant (id t : string) (r : gmap string jsval) :
  matches (list_to_map [("id", JStr id); ("tenantId", JStr t)]) r = true <->
  r !! "id" = Some (JStr id) /\ r !! "tenantId" = Some (JStr t).
Proof.
  rewrite matches_iff. cbn [list_to_map foldr uncurry fst snd].
  split.
  - intros H. split; apply field_ok_str, H.
    + apply lookup_insert_eq.
    + rewrite lookup_insert_ne by discriminate. apply lookup_insert_eq.
  - intros [Hi Ht] k v Hk.
    apply lookup_insert_Some in Hk as [[<- <-]|[_ Hk]].
    { simpl. rewrite Hi. simpl. apply String.eqb_refl. }
    apply lookup_insert_Some in Hk as [[<- <-]|[_ Hk]].
    { simpl. rewrite Ht. simpl. apply String.eqb_refl. }
    by rewrite lookup_empty in Hk.
Qed.

Lemma update_first_None (where_ d : gmap string jsval) (rows : list (gmap string jsval)) :
  update_first where_ d rows = None -> forall r, In r rows -> matches where_ r = false.
Proof.
  induction rows as [|r rows IH]; simpl; [intros _ ? []|].
  destruct (matches where_ r) eqn:Hm; [discriminate|].
  destruct (update_first where_ d rows); [discriminate|].
  intros _ x [<-|Hx]; [exact Hm|by apply IH].
Qed.

Lemma update_first_Some (where_ d : gmap string jsval) (rows rows' : list (gmap string jsval)) :
  update_first where_ d rows = Some rows' ->
  exists pre r post,
    rows = pre ++ r :: post /\ rows' = pre ++ (d ∪ r) :: post /\
    matches where_ r = true /\ forall x, In x pre -> matches where_ x = false.
Proof.
  revert rows'. induction rows as [|r rows IH]; simpl; [discriminate|]. intros rows'.
  destruct (matches where_ r) eqn:Hm.
  - intros [= <-]. exists [], r, rows. by split_and!.
  - destruct (update_first where_ d rows) as [rest|]; [|discriminate].
    intros [= <-]. destruct (IH rest eq_refl) as (pre & x & post & -> & -> & Hx & Hpre).
    exists (r :: pre), x, post. split_and!; try done.
    intros y [<-|Hy]; [exact Hm|by apply Hpre].
Qed.

Lemma table_set_table (model : string) (rows : list (gmap string jsval)) (w : World) :
  table model (set_table model rows w) = rows.
Proof. unfold table, set_table. simpl. by rewrite lookup_insert_eq. Qed.

Lemma table_set_table_ne (model other : string) (rows : list (gmap string jsval)) (w : World) :
  other <> model -> table other (set_table model rows w) = table other w.
Proof. intros Hne. unfold table, set_table. simpl. by rewrite lookup_insert_ne. Qed.

(** X14 ([softDelete]): the update is keyed on the id and the tenant
    together. Either no row of the table has both, the call rejects and
    nothing changes; or the first such row gets [isActive = false] and
    every other row, every other table and the audit log are as before.
    A row of another tenant is never touched. *)
Theorem softDelete_scoped_to_tenant (model id t : string) (w : World) :
  next_failure w = None ->
  exists r w',
    softDelete model id t w = (r, w') /\
    (forall other, other <> model -> table other w' = table other w) /\
    w_audit w' = w_audit w /\
    ((r = inl record_not_found /\ table model w' = table model w /\
      forall x, In x (table model w) ->
        ~ (x !! "id" = Some (JStr id) /\ x !! "tenantId" = Some (JStr t))) \/
     (r = inr tt /\
      exists pre x post,
        table model w = pre ++ x :: post /\
        x !! "id" = Some (JStr id) /\ x !! "tenantId" = Some (JStr t) /\
        table model w' = pre ++ (<["isActive" := JBool false]> x) :: post)).
Proof.
  intros Hn. unfold softDelete, update, store_exec. rewrite Hn.
  set (w0 := set_faults (tail (w_faults w)) w).
  change (table model w0) with (table model w).
  destruct (update_first _ _ (table model w)) as [rows|] eqn:Hu.
  - eexists _, _. split; [reflexivity|]. split_and!.
    + intros other Hne. by rewrite table_set_table_ne.
    + reflexivity.
    + right. split; [reflexivity|].
      apply update_first_Some in Hu as (pre & x & post & Hrows & -> & Hm & _).
      apply matches_id_tenant in Hm as [Hi Ht].
      exists pre, x, post. split_and!; try done.
      rewrite table_set_table. by rewrite insert_union_singleton_l.
  - eexists _, _. split; [reflexivity|]. split_and!; try reflexivity.
    left. split_and!; try reflexivity.
    intros x Hx Hm%matches_id_tenant.
    rewrite (update_first_None _ _ _ Hu x Hx) in Hm. discriminate.
Qed.

End MoreStore.

Section MoreStore2.
Context {P : Platform}.

Lemma row_id_Some (r : gmap string jsval) (id : string) :
  row_id r = Some id <-> r !! "id" = Some (JStr id).
Proof.
  unfold row_id. destruct (r !! "id") as [[]|]; split; intros [=]; by subst.
Qed.

Lemma row_ids_unique (pre post : list (gmap string jsval)) (x r : gmap string jsval) (id : string) :
  NoDup (row_ids (pre ++ x :: post)) ->
  x !! "id" = Some (JStr id) -> In r (pre ++ post) -> r !! "id" <> Some (JStr id).
Proof.
  unfold row_ids. rewrite omap_app. simpl.
  intros Hnd Hx Hr Hid. apply row_id_Some in Hx, Hid. rewrite Hx in Hnd.
  apply NoDup_app in Hnd as (_ & Hdisj & Hpost).
  apply NoDup_cons in Hpost as [Hnotin _].
  apply in_app_or in Hr as [Hr|Hr].
  - apply (Hdisj id).
    + apply list_elem_of_omap. exists r. split; [by apply list_elem_of_In|exact Hid].
    + left.
  - apply Hnotin. apply list_elem_of_omap. exists r. split; [by apply list_elem_of_In|exact Hid].
Qed.

(** X15 ([softDelete], [paginate]): with unique ids, a row that was
    soft-deleted no longer appears on any page of any tenant. *)
Theorem softDelete_then_paginate `{!EngineLaws P}
        (model id t t' : string) (params : PaginationParams) (w w1 : World) :
  NoDup (row_ids (table model w)) ->
  softDelete model id t w = (inr tt, w1) ->
  store_up 2 w1 = true ->
  exists res w2,
    paginate model params t' w1 = (inr res, w2) /\
    forall r, In r (data res) -> r !! "id" <> Some (JStr id).
Proof.
  intros Hnd Hdel Hup.
  unfold softDelete, update, store_exec in Hdel.
  destruct (next_failure w); [discriminate|].
  set (w0 := set_faults (tail (w_faults w)) w) in Hdel.
  change (table model w0) with (table model w) in Hdel.
  destruct (update_first _ _ (table model w)) as [rows|] eqn:Hu; [|discriminate].
  injection Hdel as <-.
  apply update_first_Some in Hu as (pre & x & post & Hrows & -> & Hm & _).
  apply matches_id_tenant in Hm as [Hi _]. rewrite Hrows in Hnd.
  destruct (store_up_2 (EvFindMany model (paginate_query params t'))
                       (EvCount model (q_where (paginate_query params t'))) _ Hup)
    as [Hn1 Hn2].
  eexists _, _. rewrite paginate_eq. cbv zeta. rewrite Hn1, Hn2.
  split; [reflexivity|]. cbn [data]. rewrite table_set_table.
  intros r [Hin Hmatch]%run_query_In.
  assert (Hact : r !! "isActive" = Some (JBool true)).
  { apply field_ok_bool. refine (matches_entry _ _ _ _ Hmatch _). apply lookup_insert_eq. }
  apply in_app_or in Hin as [Hin|[<-|Hin]].
  - eapply row_ids_unique; eauto using in_or_app.
  - rewrite <- insert_union_singleton_l, lookup_insert_eq in Hact. discriminate.
  - eapply row_ids_unique; eauto using in_or_app.
Qed.

End MoreStore2.

(** ** Global search *)

Section MoreSearch.
Context {P : Platform}.

Lemma includes_str_In (name : string) (entities : list string) :
  includes_str name entities = true <-> In name entities.
Proof.
  unfold includes_str. rewrite existsb_exists. split.
  - by intros (x & Hx & ->%String.eqb_eq).
  - intros H. exists name. by rewrite String.eqb_refl.
Qed.

Lemma store_up_weaken (n : nat) (w : World) : store_up (S n) w = true -> store_up n w = true.
Proof.
  unfold store_up. generalize (w_faults w). induction n as [|n IH]; intros [|o l]; simpl; auto.
  destruct o; [discriminate|]. apply IH.
Qed.

Lemma store_up_next (n : nat) (ev : event) (w : World) :
  store_up (S n) w = true -> next_failure w = None /\ store_up n (after_call ev w) = true.
Proof.
  rewrite (store_up_S n ev). intros [Hn Hup]%andb_true_iff.
  apply negb_true_iff, next_fails_false in Hn. by split.
Qed.

Lemma search_step_ok (w w0 : World) (n : nat) (entities : list string)
      (key model : string) (where_ : gmap string jsval) (cols : list string)
      (results : gmap string (list (gmap string jsval))) :
  w_tables w = w_tables w0 ->
  store_up (S n) w = true ->
  exists w',
    search_step entities key model where_ cols results w =
      (inr (if includes_str key entities
            then <[key := map (select_fields cols)
                              (run_query (search_query where_) (table model w0))]> results
            else results), w') /\
    w_tables w' = w_tables w0 /\ store_up n w' = true.
Proof.
  intros Htab Hup. unfold search_step.
  destruct (includes_str key entities) eqn:Hinc.
  - destruct (store_up_next n (EvFindMany model (search_query where_)) w Hup) as [Hn Hup'].
    run. unfold findMany, store_call. rewrite Hn.
    eexists. split.
    { change (table model (after_call (EvFindMany model (search_query where_)) w))
        with (table model w).
      unfold table. rewrite Htab. reflexivity. }
    split; [exact Htab|exact Hup'].
  - eexists. split; [reflexivity|]. split; [exact Htab|by apply store_up_weaken].
Qed.

Lemma search_hits_intro (model : string) (where_ : gmap string jsval) (cols : list string)
      (flag : string) (v : bool) (t : string) (w : World) :
  where_ !! "tenantId" = Some (JStr t) -> where_ !! flag = Some (JBool v) ->
  search_hits model where_ cols flag v t w
    (map (select_fields cols) (run_query (search_query where_) (table model w))).
Proof.
  intros Ht Hflag. split; [reflexivity|]. split.
  - rewrite length_map. unfold run_query, slice. cbn [search_query q_take q_skip].
    rewrite length_take. lia.
  - intros r Hr. unfold run_query in Hr.
    cbn [search_query q_orderBy order_rows q_where] in Hr.
    apply slice_In, filter_In in Hr as [Hin Hm]. split_and!; try done.
    + apply field_ok_str. exact (matches_entry _ _ _ _ Hm Ht).
    + apply field_ok_bool. exact (matches_entry _ _ _ _ Hm Hflag).
Qed.

(** X16 ([globalSearch]): when the store answers, the result has a key
    for exactly the requested entities among accounts, contacts, leads
    and opportunities, and the tables are unchanged. The list under
    [accounts] is the columns id, name, industry of rows of the account
    table; under [contacts] the columns id, firstName, lastName, email,
    title of rows of the contact table; under [leads] the columns id,
    firstName, lastName, email, company, status of rows of the lead
    table; under [opportunities] the columns id, name, amount of rows of
    the opportunity table. Each list has at most five rows; each row
    passes the filter built for its entity, belongs to the tenant
    argument and is active, or for a lead not converted. *)
Theorem globalSearch_tenant_scoped
        (t q : string) (entities : option (list string)) (w : World) :
  store_up 4 w = true ->
  exists results w',
    globalSearch t q entities w = (inr results, w') /\
    w_tables w' = w_tables w /\
    (forall key, is_Some (results !! key) <->
                 In key (default default_entities entities) /\ In key default_entities) /\
    (forall rows, results !! "accounts" = Some rows ->
       search_hits "account" (search_accounts_where t q)
                   ["id"; "name"; "industry"] "isActive" true t w rows) /\
    (forall rows, results !! "contacts" = Some rows ->
       search_hits "contact" (search_contacts_where t q)
                   ["id"; "firstName"; "lastName"; "email"; "title"] "isActive" true t w rows) /\
    (forall rows, results !! "leads" = Some rows ->
       search_hits "lead" (search_leads_where t q)
                   ["id"; "firstName"; "lastName"; "email"; "company"; "status"]
                   "isConverted" false t w rows) /\
    (forall rows, results !! "opportunities" = Some rows ->
       search_hits "opportunity" (search_opportunities_where t q)
                   ["id"; "name"; "amount"] "isActive" true t w rows).
Proof.
  intros Hup. set (ents := default default_entities entities).
  destruct (search_step_ok w w 3 ents "accounts" "account" (search_accounts_where t q)
              ["id"; "name"; "industry"] ∅ eq_refl Hup) as (w1 & Hs1 & Ht1 & Hup1).
  match type of Hs1 with _ = (inr ?r, _) => set (r1 := r) in * end.
  destruct (search_step_ok w1 w 2 ents "contacts" "contact" (search_contacts_where t q)
              ["id"; "firstName"; "lastName"; "email"; "title"] r1 Ht1 Hup1)
    as (w2 & Hs2 & Ht2 & Hup2).
  match type of Hs2 with _ = (inr ?r, _) => set (r2 := r) in * end.
  destruct (search_step_ok w2 w 1 ents "leads" "lead" (search_leads_where t q)
              ["id"; "firstName"; "lastName"; "email"; "company"; "status"] r2 Ht2 Hup2)
    as (w3 & Hs3 & Ht3 & Hup3).
  match type of Hs3 with _ = (inr ?r, _) => set (r3 := r) in * end.
  destruct (search_step_ok w3 w 0 ents "opportunities" "opportunity"
              (search_opportunities_where t q) ["id"; "name"; "amount"] r3 Ht3 Hup3)
    as (w4 & Hs4 & Ht4 & _).
  eexists _, w4. split.
  { unfold globalSearch. fold ents. run. rewrite Hs1, Hs2, Hs3. exact Hs4. }
  subst r1 r2 r3. clear Hs1 Hs2 Hs3 Hs4.
  split; [exact Ht4|].
  assert (Hinc : forall key, includes_str key ents = true <-> In key ents)
    by (intros key; apply includes_str_In).
  split_and!.
  - intros key. split.
    + intros [rows Hk]. revert Hk.
      destruct (includes_str "accounts" ents) eqn:H1,
               (includes_str "contacts" ents) eqn:H2,
               (includes_str "leads" ents) eqn:H3,
               (includes_str "opportunities" ents) eqn:H4;
        rewrite ?lookup_insert_Some, ?lookup_empty; intros Hk;
        repeat match goal with
               | H : _ \/ _ |- _ => destruct H
               | H : _ /\ _ |- _ => destruct H
               | H : ∅ !! _ = Some _ |- _ => rewrite lookup_empty in H
               | H : <[_:=_]> _ !! _ = Some _ |- _ => apply lookup_insert_Some in H
               end; try discriminate; subst;
        (split; [by apply Hinc|simpl; tauto]).
    + intros [He [<-|[<-|[<-|[<-|[]]]]]]; apply Hinc in He; rewrite He;
        repeat match goal with
               | |- context [if ?b then _ else _] => destruct b
               end;
        rewrite ?lookup_insert_eq, ?lookup_insert_ne by discriminate;
        rewrite ?lookup_insert_eq; eauto.
  - intros rows. destruct (includes_str "accounts" ents),
                          (includes_str "contacts" ents),
                          (includes_str "leads" ents),
                          (includes_str "opportunities" ents);
      rewrite ?lookup_insert_ne by discriminate;
      rewrite ?lookup_insert_eq, ?lookup_empty; intros [= <-];
      by apply search_hits_intro.
  - intros rows. destruct (includes_str "accounts" ents),
                          (includes_str "contacts" ents),
                          (includes_str "leads" ents),
                          (includes_str "opportunities" ents);
      rewrite ?lookup_insert_ne by discriminate;
      rewrite ?lookup_insert_eq, ?lookup_empty; intros [= <-];
      by apply search_hits_intro.
  - intros rows. destruct (includes_str "accounts" ents),
                          (includes_str "contacts" ents),
                          (includes_str "leads" ents),
                          (includes_str "opportunities" ents);
      rewrite ?lookup_insert_ne by discriminate;
      rewrite ?lookup_insert_eq, ?lookup_empty; intros [= <-];
      by apply search_hits_intro.
  - intros rows. destruct (includes_str "accounts" ents),
                          (includes_str "contacts" ents),
                          (includes_str "leads" ents),
                          (includes_str "opportunities" ents);
      rewrite ?lookup_insert_ne by discriminate;
      rewrite ?lookup_insert_eq, ?lookup_empty; intros [= <-];
      by apply search_hits_intro.
Qed.

End MoreSearch.

(** ** Request handlers, case by case *)

Section MoreHandlers.
Context {P : Platform}.

Lemma substring_all (s : string) : String.substring 0 (String.length s) s = s.
Proof. induction s as [|c s IH]; [reflexivity|]. simpl. by rewrite IH. Qed.

Lemma index_at_start (pat : string) (c : ascii) (rest : string) :
  String.prefix pat (String c rest) = true -> String.index 0 pat (String c rest) = Some 0%nat.
Proof. intros H. cbn [String.index]. by rewrite H. Qed.

Lemma replace_first_bearer (token : string) :
  replace_first "Bearer " "" ("Bearer " +:+ token) = token.
Proof.
  unfold replace_first.
  change ("Bearer " +:+ token)
    with (String "B" (String "e" (String "a" (String "r" (String "e" (String "r"
            (String " " token))))))).
  rewrite index_at_start.
  - cbn [String.substring String.length Nat.add Nat.sub].
    rewrite Nat.sub_0_r, substring_all. reflexivity.
  - apply String.prefix_correct.
    cbn [String.substring String.length]. by destruct token.
Qed.

Lemma replace_first_absent (pat rep s : string) :
  String.index 0 pat s = None -> replace_first pat rep s = s.
Proof. unfold replace_first. by intros ->. Qed.

(** X17 ([authenticate]): the [Bearer ] prefix is optional: a header
    that holds the bare token authenticates exactly as the same token
    with the prefix. *)
Theorem authenticate_bearer_prefix_optional (request : Request) (token : string) (w : World) :
  String.index 0 "Bearer " token = None ->
  authenticate (with_auth request token) w =
  authenticate (with_auth request ("Bearer " +:+ token)) w.
Proof.
  intros Habsent. unfold authenticate, with_auth. cbn [req_headers].
  rewrite !lookup_insert_eq. cbn [fmap option_fmap option_map].
  by rewrite replace_first_bearer, replace_first_absent.
Qed.

(** X18 ([GET]): the handler always answers, with 200, 401 or 500;
    the body is a page exactly when the status is 200; and no request
    changes a table, the audit log or the users. *)
Theorem GET_never_throws_and_never_writes (request : Request) (w : World) :
  exists resp w',
    GET request w = (inr resp, w') /\
    (status resp = 200 \/ status resp = 401 \/ status resp = 500) /\
    (status resp = 200 <-> exists res, body resp = BodyPage res) /\
    w_tables w' = w_tables w /\ w_audit w' = w_audit w /\ w_users w' = w_users w.
Proof.
  destruct (authenticate_world request w) as (r & w1 & Hauth & Ht & Ha & Hu & _).
  unfold GET. run. rewrite Hauth. destruct r as [e|user].
  - destruct (String.eqb (exn_message e) "Authentication required");
      [|destruct (String.eqb (exn_message e) "Invalid token")];
      (eexists _, _; split; [reflexivity|]; simpl; split_and!; auto;
       split; [discriminate|intros [? [=]]]).
  - rewrite paginate_eq. cbv zeta.
    destruct (next_failure w1) as [e|];
      [|destruct (next_failure (after_call _ w1)) as [e|]].
    3:{ eexists _, _. split; [reflexivity|]. simpl. split_and!; auto.
        split; eauto. }
    all: destruct (String.eqb (exn_message e) "Authentication required");
      [|destruct (String.eqb (exn_message e) "Invalid token")];
      (eexists _, _; split; [reflexivity|]; simpl; split_and!; auto;
       split; [discriminate|intros [? [=]]]).
Qed.

Lemma POST_catch_status (e : exn) :
  status (POST_catch e) = 400 \/ status (POST_catch e) = 401 \/ status (POST_catch e) = 500.
Proof.
  unfold POST_catch. destruct (exn_kind_of e);
    try destruct (is_substring "Authentication" (exn_message e)); simpl; auto.
Qed.

(** POST up to the creation of the account: the user, the data to
    store and the world, or the error that sends it to [catch]. *)
Lemma POST_cases (request : Request) (w : World) :
  exists w1,
    w_tables w1 = w_tables w /\ w_audit w1 = w_audit w /\
    ((exists e, POST request w =
                (inr (POST_catch e),
                 add_console ("POST /api/accounts error: " +:+ exn_message e) w1) /\
                (authenticate request w = (inl e, w1) \/
                 exists user,
                   authenticate request w = (inr user, w1) /\
                   (req_body request = inl e \/
                    exists payload, req_body request = inr payload /\
                                    createAccountSchema_parse payload = inl e))) \/
     (exists user payload fields,
        authenticate request w = (inr user, w1) /\
        req_body request = inr payload /\
        createAccountSchema_parse payload = inr fields /\
        ((exists e, next_failure w1 = Some e /\
                    POST request w =
                    (inr (POST_catch e),
                     add_console ("POST /api/accounts error: " +:+ exn_message e)
                                 (after_call (EvCreate "account" (POST_data user fields)) w1))) \/
         (next_failure w1 = None /\
          exists w',
            POST request w =
            (inr {| status := 201;
                    body := BodyAccount
                              (new_row (POST_data user fields)
                                 (after_call (EvCreate "account" (POST_data user fields)) w1)) |},
             w') /\
            table "account" w' =
              table "account" w ++
              [new_row (POST_data user fields)
                 (after_call (EvCreate "account" (POST_data user fields)) w1)])))).
Proof.
  destruct (authenticate_world request w) as (r & w1 & Hauth & Ht & Ha & _).
  exists w1. split; [exact Ht|]. split; [exact Ha|].
  unfold POST. run. rewrite Hauth. destruct r as [e|user].
  { left. exists e. split; [|by left].
    unfold POST_catch. destruct (exn_kind_of e);
      try destruct (is_substring "Authentication" (exn_message e)); reflexivity. }
  destruct (req_body request) as [e|payload] eqn:Hbody.
  { left. exists e. split; [|right; exists user; split; [reflexivity|by left]].
    unfold POST_catch. destruct (exn_kind_of e);
      try destruct (is_substring "Authentication" (exn_message e)); reflexivity. }
  destruct (createAccountSchema_parse payload) as [e|fields] eqn:Hparse.
  { left. exists e. split; [|right; exists user; split; [reflexivity|right; eauto]].
    unfold POST_catch. destruct (exn_kind_of e);
      try destruct (is_substring "Authentication" (exn_message e)); reflexivity. }
  right. exists user, payload, fields. split_and!; try done.
  unfold create, store_call. destruct (next_failure w1) as [e|] eqn:Hn.
  { left. exists e. split; [reflexivity|].
    unfold POST_catch. destruct (exn_kind_of e);
      try destruct (is_substring "Authentication" (exn_message e)); reflexivity. }
  right. split; [reflexivity|].
  set (d := POST_data user fields). set (w2 := after_call (EvCreate "account" d) w1).
  match goal with |- context [createAuditLog ?e ?w0] =>
    destruct (createAuditLog_total e w0) as (w3 & Hlog & Htab & _); rewrite Hlog
  end.
  eexists. split; [reflexivity|].
  unfold table. rewrite Htab. simpl. rewrite lookup_insert_eq. simpl.
  unfold table. by rewrite Ht.
Qed.

(** X19 ([POST]): the handler always answers, with 201, 400, 401 or
    500; any answer other than 201 leaves the tables and the audit log as
    they were, and 201 means exactly one account was appended to the
    table, the one in the body. *)
Theorem POST_outcomes (request : Request) (w : World) :
  exists resp w',
    POST request w = (inr resp, w') /\
    (status resp = 201 \/ status resp = 400 \/ status resp = 401 \/ status resp = 500) /\
    (status resp <> 201 -> w_tables w' = w_tables w /\ w_audit w' = w_audit w) /\
    (status resp = 201 ->
     exists account,
       body resp = BodyAccount account /\
       table "account" w' = table "account" w ++ [account]).
Proof.
  destruct (POST_cases request w) as (w1 & Ht & Ha & [(e & Hrun & _)|Hmore]).
  - eexists _, _. split; [exact Hrun|]. pose proof (POST_catch_status e) as Hs.
    split_and!; [tauto|by intros _|intros H201; rewrite H201 in Hs; lia].
  - destruct Hmore as (user & payload & fields & _ & _ & _ & [(e & _ & Hrun)|(_ & w' & Hrun & Htab)]).
    + eexists _, _. split; [exact Hrun|]. pose proof (POST_catch_status e) as Hs.
      split_and!; [tauto|by intros _|intros H201; rewrite H201 in Hs; lia].
    + eexists _, _. split; [exact Hrun|]. simpl.
      split_and!; [by left|by intros []|intros _; eauto].
Qed.

(** X20 ([GET], [POST]): the two handlers disagree on a token that
    does not identify an active user: GET answers 401 [Invalid token],
    POST answers 500, because its catch block looks for the word
    [Authentication] in the message and [Invalid token] lacks it. *)
Theorem invalid_token_401_from_GET_500_from_POST (request : Request) (w w1 : World) :
  authenticate request w = (inl invalid_token, w1) ->
  (GET request w).1 = inr {| status := 401; body := BodyError "Invalid token" |} /\
  (POST request w).1 = inr {| status := 500; body := BodyError "Internal server error" |}.
Proof.
  intros Hauth. unfold GET, POST. run. by rewrite Hauth.
Qed.

(** X21 ([POST]): for an authenticated caller whose body the schema
    rejects, the answer is 400 with the schema's details, the error is
    logged to the console, and the store sees no data access. *)
Theorem POST_validation_failure (request : Request) (w w1 : World) (user : AuthUser)
        (payload : jsval) (e : exn) :
  authenticate request w = (inr user, w1) ->
  req_body request = inr payload ->
  createAccountSchema_parse payload = inl e ->
  exn_kind_of e = KZodError ->
  POST request w =
  (inr {| status := 400; body := BodyValidation (exn_message e) |},
   add_console ("POST /api/accounts error: " +:+ exn_message e) w1) /\
  untouched w w1.
Proof.
  intros Hauth Hbody Hparse Hkind. split.
  - unfold POST. run. by rewrite Hauth, Hbody, Hparse, Hkind.
  - destruct (authenticate_world request w) as (r & w1' & Hrun & Ht & Ha & _ & _ & Hev & _).
    rewrite Hauth in Hrun. injection Hrun as <- <-. by split_and!.
Qed.

(** X22 ([POST]): when the store rejects the creation, the answer
    depends on the text of the store's error: a message that contains
    [Authentication] is sent to the client as it is with status 401, any
    other gives 500; the tables are unchanged. *)
Theorem POST_store_failure_response (request : Request) (w w1 : World) (user : AuthUser)
        (payload : jsval) (fields : gmap string jsval) (e : exn) :
  authenticate request w = (inr user, w1) ->
  req_body request = inr payload ->
  createAccountSchema_parse payload = inr fields ->
  next_failure w1 = Some e ->
  exn_kind_of e <> KZodError ->
  (POST request w).1 =
  inr (if is_substring "Authentication" (exn_message e)
       then {| status := 401; body := BodyError (exn_message e) |}
       else {| status := 500; body := BodyError "Internal server error" |}) /\
  w_tables (POST request w).2 = w_tables w.
Proof.
  intros Hauth Hbody Hparse Hn Hkind.
  destruct (authenticate_world request w) as (r & w1' & Hrun & Ht & _).
  rewrite Hauth in Hrun. injection Hrun as <- <-.
  unfold POST. run. rewrite Hauth, Hbody, Hparse. unfold create, store_call. rewrite Hn.
  destruct (exn_kind_of e); try contradiction;
    destruct (is_substring "Authentication" (exn_message e)); by split.
Qed.

Lemma order_rows_updatedAt_desc (rows : list (gmap string jsval)) :
  order_rows (obj [("updatedAt", JStr "desc")]) rows =
  merge_sort (desc_by "updatedAt") rows.
Proof.
  unfold order_rows, obj. cbn [list_to_map foldr uncurry fst snd].
  rewrite insert_empty, map_to_list_singleton. reflexivity.
Qed.

(** X23 ([GET], [paginate]): for an authenticated caller and a
    store that answers, GET sends 200 with a page ordered by
    [updatedAt], most recent first, whose rows are active accounts of
    the caller's own tenant. *)
Theorem GET_lists_most_recently_updated_first
        (request : Request) (w w1 : World) (user : AuthUser) :
  authenticate request w = (inr user, w1) -> store_up 2 w1 = true ->
  exists res w',
    GET request w = (inr {| status := 200; body := BodyPage res |}, w') /\
    StronglySorted (desc_by "updatedAt") (data res) /\
    forall r, In r (data res) ->
      In r (table "account" w) /\
      r !! "tenantId" = Some (JStr (au_tenantId user)) /\
      r !! "isActive" = Some (JBool true).
Proof.
  intros Hauth Hup.
  destruct (authenticate_world request w) as (r & w1' & Hrun & Ht & _).
  rewrite Hauth in Hrun. injection Hrun as <- <-.
  set (q := paginate_query (GET_params request) (au_tenantId user)).
  destruct (store_up_2 (EvFindMany "account" q) (EvCount "account" (q_where q)) w1 Hup)
    as [Hn1 Hn2].
  unfold GET. run. rewrite Hauth, paginate_eq. cbv zeta. fold q. rewrite Hn1, Hn2.
  eexists _, _. split; [reflexivity|]. cbn [data].
  assert (Hq : run_query q (table "account" w1) =
               slice (q_skip q) (q_take q)
                 (merge_sort (desc_by "updatedAt")
                    (List.filter (matches (q_where q)) (table "account" w)))).
  { unfold run_query. unfold table. rewrite Ht. fold (table "account" w).
    by rewrite <- order_rows_updatedAt_desc. }
  rewrite Hq. split.
  - apply slice_sorted, Sorted_StronglySorted; [apply _|].
    apply Sorted_merge_sort. apply _.
  - intros x Hx%slice_In. apply list_elem_of_In in Hx.
    rewrite merge_sort_Permutation in Hx. apply list_elem_of_In, filter_In in Hx as [Hin Hm].
    split; [exact Hin|]. split.
    + apply field_ok_str.
      exact (matches_entry _ _ _ _ Hm (paginate_where_tenant (GET_params request) _)).
    + apply field_ok_bool. refine (matches_entry _ _ _ _ Hm _). apply lookup_insert_eq.
Qed.

End MoreHandlers.

(** ** Login *)

Section MoreLogin.
Context {P : Platform} {L : LoginPlatform}.

Lemma authenticateUser_rejects (email_ password : string) (w : World) :
  next_failure w = None ->
  match login_candidate email_ w with
  | Some u => password_ok u password = false
  | None => True
  end ->
  authenticateUser email_ password w = (inr None, set_faults (tail (w_faults w)) w).
Proof.
  intros Hn Hbad. unfold authenticateUser, store_exec. run. rewrite Hn.
  unfold login_candidate in Hbad. cbn [w_users set_faults].
  destruct (List.find (email_matches email_) (w_users w)) as [u|]; [|reflexivity].
  by rewrite Hbad.
Qed.

Lemma createAuditLog_row (e : AuditEntry) (w : World) :
  exists w', createAuditLog e w = (inr tt, w') /\
             w_tables w' = w_tables w /\ w_users w' = w_users w /\
             (w_audit w' = w_audit w \/
              exists before after, w_audit w' = w_audit w ++ [audit_row e before after]).
Proof.
  unfold createAuditLog. run.
  destruct (stringify_or_null (ae_beforeData e)) as [err|before]; simpl.
  { eexists. split; [reflexivity|]. simpl. auto. }
  destruct (stringify_or_null (ae_afterData e)) as [err|after]; simpl.
  { eexists. split; [reflexivity|]. simpl. auto. }
  unfold auditLog_create, store_call.
  destruct (next_failure w); simpl.
  - eexists. split; [reflexivity|]. simpl. auto.
  - eexists. split; [reflexivity|]. simpl. split_and!; try done. right. by eexists _, _.
Qed.

(** X24 (login [POST], [authenticateUser]): an unknown e-mail, an
    inactive user and a wrong password all get the same answer, 401
    [Invalid credentials]; the attempt is recorded as [LOGIN_FAILED]
    with an empty tenant and no user id (or not at all, if the audit
    write fails), and neither the tables nor the users change. *)
Theorem login_rejects_uniformly (request : Request) (w : World)
        (payload : jsval) (email_ password : string) :
  req_body request = inr payload ->
  loginSchema_parse payload = inr (email_, password) ->
  next_failure w = None ->
  match login_candidate email_ w with
  | Some u => password_ok u password = false
  | None => True
  end ->
  exists w',
    login_POST request w =
      (inr {| l_status := 401; l_body := LoginError "Invalid credentials" |}, w') /\
    w_tables w' = w_tables w /\ w_users w' = w_users w /\
    (w_audit w' = w_audit w \/
     exists r, w_audit w' = w_audit w ++ [r] /\
               al_action r = "LOGIN_FAILED" /\ al_tenantId r = "" /\ al_userId r = None).
Proof.
  intros Hbody Hparse Hn Hbad. unfold login_POST. run. rewrite Hbody, Hparse. cbn [fst snd].
  rewrite (authenticateUser_rejects email_ password w Hn Hbad).
  match goal with |- context [createAuditLog ?e ?w0] =>
    destruct (createAuditLog_row e w0) as (w' & Hlog & Htab & Husers & Haudit); rewrite Hlog
  end.
  eexists. split; [reflexivity|]. split_and!; try done.
  destruct Haudit as [Hsame|(b & a & Hrow)]; [by left|right].
  eexists. split; [exact Hrow|]. by split_and!.
Qed.

Lemma jwt_verify_sign `{!PlatformLaws P} (payload : TokenPayload) (secret : string)
      (expiresIn issued now : N) :
  (now < issued + expiresIn)%N ->
  jwt_verify (jwt_sign payload secret expiresIn issued) secret now =
  inr (issued_claims payload expiresIn issued).
Proof.
  intros Hnow. unfold jwt_verify.
  rewrite jwt_sign_segments by (apply encode_no_dot || apply hmac_no_dot).
  rewrite decode_encode, String.eqb_refl. simpl negb. cbv iota.
  simpl jc_exp.
  destruct (N.leb_spec (issued + expiresIn) now) as [Hle|Hlt]; [lia|reflexivity].
Qed.

Lemma find_unique_user (users : list UserRow) (u : UserRow) :
  NoDup (map user_id users) -> In u users -> user_isActive u = true ->
  List.find (user_matches (user_id u) (user_tenantId u)) users = Some u.
Proof.
  intros Hnd Hin Hact.
  induction users as [|x users IH]; [destruct Hin|].
  simpl in *. apply NoDup_cons in Hnd as [Hx Hnd].
  destruct Hin as [->|Hin].
  - unfold user_matches. by rewrite !String.eqb_refl, Hact.
  - destruct (user_matches (user_id u) (user_tenantId u) x) eqn:Hm; [|by apply IH].
    apply user_matches_true in Hm as (Hid & _). exfalso. apply Hx.
    rewrite Hid. apply list_elem_of_In, in_map, Hin.
Qed.

(** X25 ([authenticateUser], [getUserByToken]): a login that
    succeeds is for an active user with that e-mail whose password
    matches, and the token it returns, presented before it expires to a
    store with the same users and roles, authenticates as that very
    user. *)
Theorem login_token_authenticates_same_user `{!PlatformLaws P}
        (email_ password : string) (w w1 w2 : World) (user : AuthUser) (token : string) :
  authenticateUser email_ password w = (inr (Some (user, token)), w1) ->
  NoDup (map user_id (w_users w)) ->
  w_users w2 = w_users w -> w_roles w2 = w_roles w ->
  (w_clock w2 < w_clock w + JWT_EXPIRES_IN)%N ->
  next_failure w2 = None ->
  (exists u, login_candidate email_ w = Some u /\ password_ok u password = true /\
             au_id user = user_id u /\ au_tenantId user = user_tenantId u) /\
  (getUserByToken token w2).1 = inr (Some user).
Proof.
  intros Hlogin Hnd Hu2 Hr2 Hclock Hn2.
  unfold authenticateUser, store_exec in Hlogin. run.
  destruct (next_failure w); [discriminate|].
  cbn [w_users w_roles set_faults] in Hlogin.
  destruct (List.find (email_matches email_) (w_users w)) as [u|] eqn:Hfind; [|discriminate].
  destruct (password_ok u password) eqn:Hpw; [|discriminate].
  cbn [negb] in Hlogin.
  destruct (next_failure (set_faults (tail (w_faults w)) w)); [discriminate|].
  cbn [w_clock set_faults] in Hlogin. injection Hlogin as <- <- _.
  split.
  { exists u. unfold login_candidate. by rewrite Hfind. }
  apply find_some in Hfind as [Hin [_ Hact]%andb_true_iff].
  unfold getUserByToken. run.
  unfold verifyToken, generateToken. rewrite jwt_verify_sign by exact Hclock.
  cbn [issued_claims jc_payload login_payload userId tenantId].
  unfold user_findFirst, store_call. rewrite Hn2.
  cbn [after_call w_users w_roles set_faults add_event]. rewrite Hu2, Hr2.
  by rewrite (find_unique_user _ u Hnd Hin Hact).
Qed.

(** X26 (login [POST]): valid credentials of an active user get 200
    with the user's public fields and a token issued for the user's id,
    tenant, role and e-mail; the login is recorded as [LOGIN_SUCCESS]
    under the user's tenant, and a failing audit write does not fail the
    login. *)
Theorem login_accepts_valid_credentials (request : Request) (w : World)
        (payload : jsval) (email_ password : string) (u : UserRow) :
  req_body request = inr payload ->
  loginSchema_parse payload = inr (email_, password) ->
  store_up 2 w = true ->
  login_candidate email_ w = Some u ->
  password_ok u password = true ->
  exists w',
    login_POST request w =
      (inr {| l_status := 200;
              l_body := LoginOk (login_user (to_auth_user u (role_of (w_roles w) u)))
                                (generateToken (login_payload u) (w_clock w)) |}, w') /\
    w_tables w' = w_tables w /\ w_users w' = w_users w /\
    (w_audit w' = w_audit w \/
     exists r, w_audit w' = w_audit w ++ [r] /\
               al_action r = "LOGIN_SUCCESS" /\ al_tenantId r = user_tenantId u /\
               al_userId r = Some (user_id u)).
Proof.
  intros Hbody Hparse Hup Hcand Hpw.
  assert (Hn1 : next_failure w = None /\
                next_failure (set_faults (tail (w_faults w)) w) = None).
  { unfold store_up, next_failure in *. cbn [w_faults set_faults].
    destruct (w_faults w) as [|[e|] [|[e'|] l]]; simpl in *; try discriminate; auto. }
  destruct Hn1 as [Hn1 Hn2].
  unfold login_POST. run. rewrite Hbody, Hparse. cbn [fst snd].
  unfold authenticateUser, store_exec. run. rewrite Hn1.
  cbn [w_users w_roles set_faults]. unfold login_candidate in Hcand. rewrite Hcand, Hpw.
  cbn [negb]. rewrite Hn2. cbn [w_clock set_faults].
  match goal with |- context [createAuditLog ?e ?w0] =>
    destruct (createAuditLog_row e w0) as (w' & Hlog & Htab & Husers & Haudit); rewrite Hlog
  end.
  eexists. split; [reflexivity|]. split_and!; try done.
  destruct Haudit as [Hsame|(b & a & Hrow)]; [by left|right].
  eexists. split; [exact Hrow|]. by split_and!.
Qed.

End MoreLogin.

(** ** Default roles *)

Lemma role_create_ok (data : gmap string jsval) (w : World) :
  next_failure w = None ->
  role_create data w =
  (inr tt, add_role (role_of_data (pretty (w_next_id w)) data)
                    (after_call (EvCreate "role" data) w)).
Proof. intros Hn. unfold role_create, store_call. by rewrite Hn. Qed.

Lemma role_create_fails (data : gmap string jsval) (w : World) (e : exn) :
  next_failure w = Some e ->
  role_create data w = (inl e, after_call (EvCreate "role" data) w).
Proof. intros Hn. unfold role_create, store_call. by rewrite Hn. Qed.

(** X27 ([createDefaultRoles]): the four roles are created one call
    after the other and not in a transaction: if the call number [n+1]
    fails, the error reaches the caller and the first [n] roles stay in
    the store. *)
Theorem createDefaultRoles_is_not_atomic (t : string) (w : World) (n : nat) (e : exn)
        (rest : list (option exn)) :
  w_faults w = replicate n None ++ Some e :: rest -> (n < 4)%nat ->
  exists w',
    createDefaultRoles t w = (inl e, w') /\
    map role_summary (w_roles w') =
    map role_summary (w_roles w) ++
    map (fun role => (role.1.1, perm_obj role.2)) (take n default_roles) /\
    w_faults w' = rest.
Proof.
  intros Hf Hn. unfold createDefaultRoles, default_roles.
  destruct n as [|[|[|[|n]]]]; [| | | |lia]; simpl in Hf;
    cbn [for_each]; run;
    repeat first
      [ rewrite (role_create_fails _ _ e)
          by (unfold next_failure; cbn [w_faults add_role after_call set_faults add_event tail];
              rewrite Hf; reflexivity)
      | rewrite role_create_ok
          by (unfold next_failure; cbn [w_faults add_role after_call set_faults add_event tail];
              rewrite Hf; reflexivity) ];
    (eexists; split; [reflexivity|]);
    (split; [|cbn [w_faults add_role after_call set_faults add_event tail];
              rewrite Hf; reflexivity]);
    cbn [w_roles add_role after_call set_faults add_event];
    rewrite ?map_app, <- ?app_assoc;
    first [ symmetry; apply app_nil_r | f_equal; reflexivity ].
Qed.

(** X28 ([createDefaultRoles]): on a store that answers, exactly the
    four system roles are added, in the order Super Admin, Admin, Sales
    Manager, Sales Rep, each with its default permission set and each
    created with the tenant id of the argument; nothing else changes. *)
Theorem createDefaultRoles_creates_four_roles (t : string) (w : World) :
  store_up 4 w = true ->
  exists w',
    createDefaultRoles t w = (inr tt, w') /\
    map role_summary (w_roles w') =
    map role_summary (w_roles w) ++
    [("Super Admin", perm_obj DEFAULT_PERMISSIONS_SuperAdmin);
     ("Admin", perm_obj DEFAULT_PERMISSIONS_Admin);
     ("Sales Manager", perm_obj DEFAULT_PERMISSIONS_SalesManager);
     ("Sales Rep", perm_obj DEFAULT_PERMISSIONS_SalesRep)] /\
    (exists d1 d2 d3 d4,
       w_trace w' = w_trace w ++ [EvCreate "role" d1; EvCreate "role" d2;
                                  EvCreate "role" d3; EvCreate "role" d4] /\
       Forall (fun d => d !! "tenantId" = Some (JStr t)) [d1; d2; d3; d4]) /\
    w_tables w' = w_tables w /\ w_users w' = w_users w.
Proof.
  intros Hup. unfold createDefaultRoles, default_roles. unfold store_up in Hup.
  cbn [for_each]; run.
  destruct (w_faults w) as [|[?|] [|[?|] [|[?|] [|[?|] ?]]]] eqn:Hf;
    simpl in Hup; try discriminate;
    repeat (rewrite role_create_ok
      by (unfold next_failure;
          cbn [w_faults add_role after_call set_faults add_event tail];
          rewrite Hf; reflexivity)).
  all: eexists; (split; [reflexivity|]).
  all: cbn [w_roles w_trace w_tables w_users add_role after_call set_faults add_event].
  all: split_and!; try done.
  all: try (rewrite !map_app, <- !app_assoc; f_equal).
  all: do 4 eexists; rewrite <- !app_assoc; (split; [reflexivity|]); repeat constructor.
Qed.

(** * Instances of the further properties *)

#[export] Instance demo_engine_laws : EngineLaws demo_platform.
Proof. constructor. intros orderBy rows. reflexivity. Qed.

Lemma pair_fst {A B} (x : A * B) (a : A) : x.1 = a -> x = (a, x.2).
Proof. intros <-. by destruct x. Qed.

Lemma validatePassword_extension_witness :
  isValid (validatePassword "Abcdef1!" DEFAULT_PASSWORD_POLICY) = true /\
  isValid (validatePassword ("<<" +:+ "Abcdef1!" +:+ ">>") DEFAULT_PASSWORD_POLICY) = true.
Proof.
  split; [reflexivity|].
  apply (validatePassword_extension "Abcdef1!" "<<" ">>" DEFAULT_PASSWORD_POLICY). reflexivity.
Defined.

Lemma validatePassword_needs_one_char_per_class_witness :
  isValid (validatePassword "Abcdef1!" DEFAULT_PASSWORD_POLICY) = true /\
  b2z (requireUppercase DEFAULT_PASSWORD_POLICY) + b2z (requireLowercase DEFAULT_PASSWORD_POLICY) +
  b2z (requireNumbers DEFAULT_PASSWORD_POLICY) + b2z (requireSpecialChars DEFAULT_PASSWORD_POLICY)
  <= Z.of_nat (String.length "Abcdef1!").
Proof.
  split; [reflexivity|].
  apply (validatePassword_needs_one_char_per_class "Abcdef1!" DEFAULT_PASSWORD_POLICY). reflexivity.
Defined.

Lemma hasPermission_monotone_witness :
  perm_le DEFAULT_PERMISSIONS_SalesRep DEFAULT_PERMISSIONS_SalesManager = true /\
  hasPermission (perm_obj DEFAULT_PERMISSIONS_SalesManager) "leads" "write" = inr true.
Proof.
  split; [vm_compute; reflexivity|].
  apply (hasPermission_monotone DEFAULT_PERMISSIONS_SalesRep DEFAULT_PERMISSIONS_SalesManager);
    vm_compute; reflexivity.
Defined.

Lemma hasPermission_star_entry_needs_star_action_witness :
  hasPermission (perm_obj {[ "*" := ["read"] ]}) "accounts" "read" = inr false.
Proof.
  apply (hasPermission_star_entry_needs_star_action {[ "*" := ["read"] ]}
           "accounts" "read" ["read"]).
  - reflexivity.
  - intros [H|[]]. discriminate.
  - reflexivity.
  - reflexivity.
Defined.

Lemma hasPermission_malformed_entry_throws_witness :
  hasPermission (JObj {[ "accounts" := JBool true ]}) "accounts" "read" =
  inl includes_type_error.
Proof.
  apply (hasPermission_malformed_entry_throws {[ "accounts" := JBool true ]}
           "accounts" "read" (JBool true)).
  - reflexivity.
  - right. split; reflexivity.
Defined.

Lemma hasPermission_string_entry_matches_substrings_witness :
  hasPermission (JObj {[ "accounts" := JStr ("read" +:+ "write" +:+ EmptyString) ]})
                "accounts" "write" = inr true.
Proof.
  apply (hasPermission_string_entry_matches_substrings
           {[ "accounts" := JStr ("read" +:+ "write" +:+ EmptyString) ]} "accounts" "write" "read" EmptyString).
  - reflexivity.
  - reflexivity.
  - discriminate.
Defined.

Lemma paginate_returns_tenant_active_rows_witness :
  exists res w',
    @paginate demo_platform "account" (demo_params None None) "tenant-a"
              (demo_world demo_accounts_25 []) = (inr res, w') /\
    w_tables w' = w_tables (demo_world demo_accounts_25 []) /\
    forall r, In r (data res) ->
      In r (table "account" (demo_world demo_accounts_25 [])) /\
      r !! "tenantId" = Some (JStr "tenant-a") /\
      r !! "isActive" = Some (JBool true).
Proof.
  apply (@paginate_returns_tenant_active_rows demo_platform demo_engine_laws).
  reflexivity.
Defined.

Lemma paginate_page_size_witness :
  exists res w',
    @paginate demo_platform "account" (demo_params (Some 3) (Some 10)) "tenant-a"
              (demo_world demo_accounts_25 []) = (inr res, w') /\
    Z.of_nat (length (data res)) =
      Z.max 0 (Z.min (limit (meta res)) (total (meta res) - (3 - 1) * limit (meta res))) /\
    (hasNext (meta res) = true <-> 3 * limit (meta res) < total (meta res)) /\
    (totalPages (meta res) < 3 -> data res = []).
Proof.
  apply (@paginate_page_size demo_platform demo_engine_laws "account" "tenant-a"
           (demo_params (Some 3) (Some 10)) 3 10);
    [reflexivity|reflexivity|lia|lia|reflexivity].
Defined.

Lemma paginate_pages_partition_witness :
  let q := paginate_query (demo_params None (Some 10)) "tenant-a" in
  let matching :=
    @order_rows demo_platform (q_orderBy q)
                (List.filter (@matches demo_platform (q_where q)) demo_accounts_25) in
  let pages :=
    Z.to_nat (ceil_div (Z.of_nat (length matching))
                       (paginate_limit (demo_params None (Some 10)))) in
  concat (map (fun i => @run_query demo_platform
                          (paginate_query (with_page (demo_params None (Some 10))
                                                     (Z.of_nat i)) "tenant-a")
                          demo_accounts_25)
              (seq 1 pages)) = matching.
Proof.
  apply (@paginate_pages_partition demo_platform "tenant-a" (demo_params None (Some 10)) 10
           demo_accounts_25); [reflexivity|lia].
Defined.

Lemma createAuditLog_appends_entry_witness :
  exists w',
    @createAuditLog demo_platform (demo_entry JUndefined (JObj ∅)) (demo_world [] []) =
      (inr tt, w') /\
    w_audit w' = [audit_row (demo_entry JUndefined (JObj ∅)) None (Some "{}")].
Proof.
  destruct (@createAuditLog_appends_entry demo_platform (demo_entry JUndefined (JObj ∅))
              (demo_world [] []) None (Some "{}") eq_refl eq_refl eq_refl)
    as (_ & _ & w' & Hrun & Haudit & _).
  exists w'. split; [exact Hrun|exact Haudit].
Defined.

Lemma createAuditLog_serializer_failure_skips_store_witness :
  @createAuditLog cyclic_platform (demo_entry JUndefined (JObj ∅)) (demo_world [] []) =
  (inr tt,
   add_console "Failed to create audit log: Converting circular structure to JSON"
               (demo_world [] [])).
Proof.
  apply (@createAuditLog_serializer_failure_skips_store cyclic_platform
           (demo_entry JUndefined (JObj ∅)) (demo_world [] [])
           (Exn KTypeError "Converting circular structure to JSON")).
  right. split; [by exists None|reflexivity].
Defined.

Lemma softDelete_scoped_to_tenant_witness :
  (@softDelete demo_platform "account" "a2" "tenant-a" (demo_world demo_rows [])).1 =
  inl record_not_found.
Proof.
  destruct (@softDelete_scoped_to_tenant demo_platform "account" "a2" "tenant-a"
              (demo_world demo_rows []) eq_refl)
    as (r & w' & Hrun & _ & _ & [(-> & _ & _)|(-> & pre & x & post & Htab & Hid & Ht & _)]).
  - by rewrite Hrun.
  - exfalso.
    assert (Hx : In x (table "account" (demo_world demo_rows []))).
    { rewrite Htab. apply in_or_app. right. by left. }
    destruct Hx as [<-|[<-|[<-|[]]]]; vm_compute in Hid, Ht; congruence.
Defined.

Lemma softDelete_then_paginate_witness :
  exists res w2,
    @paginate demo_platform "account" (demo_params None None) "tenant-a"
      (@softDelete demo_platform "account" "a1" "tenant-a" (demo_world demo_rows [])).2 =
      (inr res, w2) /\
    forall r, In r (data res) -> r !! "id" <> Some (JStr "a1").
Proof.
  apply (@softDelete_then_paginate demo_platform demo_engine_laws "account" "a1" "tenant-a"
           "tenant-a" (demo_params None None) (demo_world demo_rows [])).
  - apply (bool_decide_unpack _). vm_compute. reflexivity.
  - apply pair_fst. vm_compute. reflexivity.
  - vm_compute. reflexivity.
Defined.

Lemma globalSearch_tenant_scoped_witness :
  exists results w',
    @globalSearch demo_platform "tenant-a" "acme" (Some ["accounts"; "invoices"])
                  (demo_world demo_rows []) = (inr results, w') /\
    (is_Some (results !! "accounts") /\ ~ is_Some (results !! "invoices")) /\
    forall rows, results !! "accounts" = Some rows ->
      @search_hits demo_platform "account" (search_accounts_where "tenant-a" "acme")
                   ["id"; "name"; "industry"] "isActive" true "tenant-a"
                   (demo_world demo_rows []) rows.
Proof.
  destruct (@globalSearch_tenant_scoped demo_platform "tenant-a" "acme"
              (Some ["accounts"; "invoices"]) (demo_world demo_rows []) eq_refl)
    as (results & w' & Hrun & _ & Hkeys & Hhits & _).
  exists results, w'. split; [exact Hrun|]. split; [|exact Hhits]. split.
  - apply Hkeys. split; [by left|]. vm_compute. by left.
  - intros H. apply Hkeys in H as [_ H]. vm_compute in H.
    decompose [or] H; congruence.
Defined.

Lemma result_inr {A} (x : result A * World) :
  match x.1 with inr _ => true | inl _ => false end = true ->
  exists a, x = (inr a, x.2).
Proof. destruct x as [[e|a] w]; simpl; [discriminate|]. intros _. by exists a. Qed.

Lemma authenticate_bearer_prefix_optional_witness :
  @authenticate demo_platform
     (with_auth (demo_request "u1" (inr demo_body)) (demo_token "u1"))
     (demo_world [] []) =
  @authenticate demo_platform
     (with_auth (demo_request "u1" (inr demo_body)) ("Bearer " +:+ demo_token "u1"))
     (demo_world [] []).
Proof.
  apply (@authenticate_bearer_prefix_optional demo_platform).
  vm_compute. reflexivity.
Defined.

Lemma invalid_token_401_from_GET_500_from_POST_witness :
  (@GET demo_platform (demo_request "u3" (inr demo_body)) (demo_world [] [])).1 =
    inr {| status := 401; body := BodyError "Invalid token" |} /\
  (@POST demo_platform (demo_request "u3" (inr demo_body)) (demo_world [] [])).1 =
    inr {| status := 500; body := BodyError "Internal server error" |}.
Proof.
  apply (@invalid_token_401_from_GET_500_from_POST demo_platform
           (demo_request "u3" (inr demo_body)) (demo_world [] [])
           (@authenticate demo_platform (demo_request "u3" (inr demo_body))
                          (demo_world [] [])).2).
  apply pair_fst. vm_compute. reflexivity.
Defined.

Lemma POST_validation_failure_witness :
  (@POST demo_platform (demo_request "u1" (inr (JObj {[ "name" := JStr EmptyString ]})))
         (demo_world [] [])).1 =
  inr {| status := 400; body := BodyValidation "Account name is required" |}.
Proof.
  destruct (result_inr (@authenticate demo_platform
                          (demo_request "u1" (inr (JObj {[ "name" := JStr EmptyString ]})))
                          (demo_world [] [])))
    as [user Hauth]; [vm_compute; reflexivity|].
  destruct (@POST_validation_failure demo_platform _ _ _ user
              (JObj {[ "name" := JStr EmptyString ]})
              (Exn KZodError "Account name is required") Hauth eq_refl eq_refl eq_refl)
    as [Hrun _].
  rewrite Hrun. reflexivity.
Defined.

Lemma POST_store_failure_response_witness :
  (@POST demo_platform (demo_request "u1" (inr demo_body))
         (demo_world [] [None; Some (Exn KPrismaError "Authentication failed against server")])).1 =
  inr {| status := 401; body := BodyError "Authentication failed against server" |}.
Proof.
  destruct (result_inr (@authenticate demo_platform (demo_request "u1" (inr demo_body))
              (demo_world [] [None; Some (Exn KPrismaError "Authentication failed against server")])))
    as [user Hauth]; [vm_compute; reflexivity|].
  destruct (@POST_store_failure_response demo_platform _ _ _ user demo_body
              {[ "name" := JStr "Acme" ]}
              (Exn KPrismaError "Authentication failed against server")
              Hauth eq_refl eq_refl) as [Hrun _].
  - vm_compute. reflexivity.
  - discriminate.
  - rewrite Hrun. reflexivity.
Defined.

Lemma GET_lists_most_recently_updated_first_witness :
  exists res w',
    @GET demo_platform (demo_request "u1" (inr demo_body)) (demo_world demo_accounts_2 []) =
      (inr {| status := 200; body := BodyPage res |}, w') /\
    StronglySorted (desc_by "updatedAt") (data res).
Proof.
  destruct (result_inr (@authenticate demo_platform (demo_request "u1" (inr demo_body))
              (demo_world demo_accounts_2 []))) as [user Hauth]; [vm_compute; reflexivity|].
  destruct (@GET_lists_most_recently_updated_first demo_platform _ _ _ user Hauth)
    as (res & w' & Hrun & Hsorted & _).
  - vm_compute. reflexivity.
  - exists res, w'. split; [exact Hrun|exact Hsorted].
Defined.

Lemma login_rejects_uniformly_witness :
  exists w',
    @login_POST demo_platform demo_login
       (demo_login_request "u1@demo.crm.com" "guess") (demo_world [] []) =
    (inr {| l_status := 401; l_body := LoginError "Invalid credentials" |}, w').
Proof.
  destruct (@login_rejects_uniformly demo_platform demo_login
              (demo_login_request "u1@demo.crm.com" "guess") (demo_world [] [])
              (demo_login_body "u1@demo.crm.com" "guess") "u1@demo.crm.com" "guess"
              eq_refl eq_refl eq_refl eq_refl) as (w' & Hrun & _).
  exists w'. exact Hrun.
Defined.

Lemma login_token_authenticates_same_user_witness :
  match (@authenticateUser demo_platform demo_login "u1@demo.crm.com" "u1-secret"
           (demo_world [] [])).1 with
  | inr (Some (user, token)) =>
      (@getUserByToken demo_platform token (demo_world [] [])).1 = inr (Some user)
  | _ => False
  end.
Proof.
  assert (Hok : match (@authenticateUser demo_platform demo_login "u1@demo.crm.com"
                         "u1-secret" (demo_world [] [])).1 with
                | inr (Some _) => true
                | _ => false
                end = true) by (vm_compute; reflexivity).
  destruct (@authenticateUser demo_platform demo_login "u1@demo.crm.com" "u1-secret"
              (demo_world [] [])) as [[e|[[user token]|]] w1] eqn:Hlogin;
    try discriminate Hok.
  simpl.
  apply (@login_token_authenticates_same_user demo_platform demo_login demo_laws
           "u1@demo.crm.com" "u1-secret" (demo_world [] []) w1 (demo_world [] [])
           user token Hlogin).
  - apply (bool_decide_unpack _). vm_compute. reflexivity.
  - reflexivity.
  - reflexivity.
  - reflexivity.
  - reflexivity.
Defined.

Lemma login_accepts_valid_credentials_witness :
  exists w',
    @login_POST demo_platform demo_login
       (demo_login_request "u1@demo.crm.com" "u1-secret") (demo_world [] []) =
    (inr {| l_status := 200;
            l_body := LoginOk (login_user (to_auth_user (demo_user "u1" "r1" true)
                                                        (Some demo_role_rep)))
                              (@generateToken demo_platform
                                 (login_payload (demo_user "u1" "r1" true)) 1000) |}, w').
Proof.
  destruct (@login_accepts_valid_credentials demo_platform demo_login
              (demo_login_request "u1@demo.crm.com" "u1-secret") (demo_world [] [])
              (demo_login_body "u1@demo.crm.com" "u1-secret") "u1@demo.crm.com" "u1-secret"
              (demo_user "u1" "r1" true) eq_refl eq_refl eq_refl eq_refl eq_refl)
    as (w' & Hrun & _).
  exists w'. exact Hrun.
Defined.

Lemma createDefaultRoles_is_not_atomic_witness :
  exists w',
    createDefaultRoles "tenant-b"
      (demo_world [] [None; None; Some (Exn KPrismaError "Connection lost")]) =
      (inl (Exn KPrismaError "Connection lost"), w') /\
    map role_name (w_roles w') =
    ["Sales Rep"; "Reports"; "Super Admin"; "Admin"].
Proof.
  destruct (createDefaultRoles_is_not_atomic "tenant-b"
              (demo_world [] [None; None; Some (Exn KPrismaError "Connection lost")])
              2 (Exn KPrismaError "Connection lost") [] eq_refl ltac:(lia))
    as (w' & Hrun & Hroles & _).
  exists w'. split; [exact Hrun|].
  apply (f_equal (map fst)) in Hroles.
  rewrite map_map in Hroles. exact Hroles.
Defined.

Lemma createDefaultRoles_creates_four_roles_witness :
  exists w',
    createDefaultRoles "tenant-b" (demo_world [] []) = (inr tt, w') /\
    map role_name (w_roles w') =
    ["Sales Rep"; "Reports"; "Super Admin"; "Admin"; "Sales Manager"; "Sales Rep"].
Proof.
  destruct (createDefaultRoles_creates_four_roles "tenant-b" (demo_world [] []) eq_refl)
    as (w' & Hrun & Hroles & _).
  exists w'. split; [exact Hrun|].
  apply (f_equal (map fst)) in Hroles.
  rewrite map_map in Hroles. exact Hroles.
Defined.
